(** * The validation ceremony store of idena-desktop

    A shallow embedding of
    [src/renderer/shared/providers/validation-context.js]: the flip decoder
    ([fromHexString], [decodeFlips]), the answer test ([hasAnswer]), the
    reducer ([validationReducer]), the payload builder ([prepareAnswers],
    [submitShortAnswers], [submitLongAnswers]) and the effect of
    [ValidationProvider] that fires the submission on the last second of a
    session.

    JavaScript objects whose set of properties varies (flips, answer
    records) are finite maps from property names to values; the store's
    state, whose properties are fixed by [initialState], is a record. *)

From Stdlib Require Import ZArith String Ascii List.
From stdpp Require Import gmap strings list fin_maps.

Set Warnings "-register-all".

Open Scope Z_scope.

(** ** JavaScript values *)

(** The values that flow through the store. Finite numbers are the integers
    (answer codes, indexes and bytes are all integral); [JNaN] and [JInf]
    are the numbers that are not finite. [JBuf] is a byte buffer
    (a [Uint8Array]), [JArr] an array. *)
Inductive jsval : Type :=
| JUndefined
| JNull
| JBool (b : bool)
| JNum (z : Z)
| JNaN
| JInf (negative : bool)
| JStr (s : string)
| JBuf (bytes : list Z)
| JArr (items : list jsval).

(** An object with a varying set of properties. *)
Abbreviation obj := (gmap string jsval).

(** Property read [o.k]: a missing property reads as [undefined]. *)
Definition prop (o : obj) (k : string) : jsval := default JUndefined (o !! k).

(** Exceptions: a [TypeError] raised by the engine (a call on [undefined],
    [null] or a non-function), or an [Error] carrying a message. *)
Inductive exn : Type :=
| TypeError
| Error (msg : string).

Inductive result (A : Type) : Type :=
| Ok (a : A)
| Throw (e : exn).
Arguments Ok {A} a.
Arguments Throw {A} e.

(** The exception monad: [x ← r; k] runs [k] when [r] returned and
    propagates the exception otherwise. *)
#[global] Instance result_ret : MRet result := fun _ a => Ok a.
#[global] Instance result_bind : MBind result := fun _ _ k r =>
  match r with
  | Ok a => k a
  | Throw e => Throw e
  end.

(** [Array.prototype.map] with a callback that may raise is [mapM] in this
    monad: the elements are visited in order and the first exception aborts
    the whole call. *)

(** ** Array primitives *)

(** [l[i]] for an integral index: [None] stands for [undefined]. *)
Definition js_index {A} (l : list A) (i : Z) : option A :=
  if 0 <=? i then l !! Z.to_nat i else None.

(** The relative index of [Array.prototype.slice]: negative indexes count
    from the end, and the result is clamped to [0 .. len]. *)
Definition relative_index (len i : Z) : Z :=
  if i <? 0 then Z.max (len + i) 0 else Z.min i len.

(** [l.slice(start, stop)]. *)
Definition js_slice {A} (l : list A) (start stop : Z) : list A :=
  let len := Z.of_nat (length l) in
  let k := relative_index len start in
  let final := relative_index len stop in
  take (Z.to_nat (final - k)) (drop (Z.to_nat k) l).

(** [l.slice(start)]. *)
Definition js_slice_from {A} (l : list A) (start : Z) : list A :=
  js_slice l start (Z.of_nat (length l)).

(** ** Constants *)

Module AnswerType.
Definition None : Z := 0.
Definition Left : Z := 1.
Definition Right : Z := 2.
Definition Inappropriate : Z := 3.
End AnswerType.

Inductive SessionType : Type :=
| Short
| Long.

(** Modelled from the spec: [EpochPeriod] is imported from
    [./epoch-context], which is not part of the sources; the spec gives the
    reported period as ShortSession, LongSession or another one. *)
Inductive EpochPeriod : Type :=
| ShortSession
| LongSession
| OtherPeriod.

(** ** [fromHexString] *)

(** The line terminators, which [.] in a regular expression does not
    match. Characters are 8-bit here, so only LF and CR occur. *)
Definition is_line_terminator (c : ascii) : bool :=
  let n := nat_of_ascii c in
  (n =? 10)%nat || (n =? 13)%nat.

(** [s.match(/.{1,2}/g)]: the successive greedy matches of one or two
    characters other than line terminators. The empty list stands for the
    [null] that [match] returns when nothing matches. *)
Fixpoint match_pairs (s : string) : list string :=
  match s with
  | EmptyString => []
  | String c s1 =>
      if is_line_terminator c then match_pairs s1
      else
        match s1 with
        | EmptyString => [String c EmptyString]
        | String d s2 =>
            if is_line_terminator d
            then String c EmptyString :: match_pairs s2
            else String c (String d EmptyString) :: match_pairs s2
        end
  end.

(** White space as [parseInt] skips it (8-bit characters). *)
Definition is_white_space (c : ascii) : bool :=
  let n := nat_of_ascii c in
  (n =? 9)%nat || (n =? 10)%nat || (n =? 11)%nat || (n =? 12)%nat ||
  (n =? 13)%nat || (n =? 32)%nat || (n =? 160)%nat.

Fixpoint skip_white_space (s : string) : string :=
  match s with
  | String c s' => if is_white_space c then skip_white_space s' else s
  | EmptyString => s
  end.

(** The value of a digit in radix 16, if it is one. *)
Definition hex_digit (c : ascii) : option Z :=
  let n := Z.of_nat (nat_of_ascii c) in
  if (48 <=? n) && (n <=? 57) then Some (n - 48)
  else if (97 <=? n) && (n <=? 102) then Some (n - 87)
  else if (65 <=? n) && (n <=? 70) then Some (n - 55)
  else None.

(** The longest prefix of digits of [s], read in radix 16 after the digits
    [acc] already seen. *)
Fixpoint hex_digits (acc : Z) (s : string) : Z :=
  match s with
  | String c s' =>
      match hex_digit c with
      | Some d => hex_digits (16 * acc + d) s'
      | None => acc
      end
  | EmptyString => acc
  end.

(** [parseInt(s, 16)]: white space is skipped, a sign is read, a prefix
    [0x] or [0X] is dropped, and the longest prefix of hexadecimal digits
    is the value; [None] stands for [NaN]. *)
Definition parseInt16 (s : string) : option Z :=
  let s1 := skip_white_space s in
  let (sign, s2) :=
    match s1 with
    | String "-" r => (-1, r)
    | String "+" r => (1, r)
    | _ => (1, s1)
    end in
  let s3 :=
    match s2 with
    | String "0" (String "x" r) => r
    | String "0" (String "X" r) => r
    | _ => s2
    end in
  match s3 with
  | String c _ =>
      match hex_digit c with
      | Some _ => Some (sign * hex_digits 0 s3)
      | None => None
      end
  | EmptyString => None
  end.

(** The conversion of a number to an element of a [Uint8Array]: [NaN]
    becomes 0 and an integer is reduced modulo 256. *)
Definition toUint8 (n : option Z) : Z :=
  match n with
  | Some z => z mod 256
  | None => 0
  end.

(** [s.substring(2)]. *)
Definition substring2 (s : string) : string :=
  match s with
  | String _ (String _ r) => r
  | _ => EmptyString
  end.

Definition fromHexString (hexString : string) : result (list Z) :=
  match match_pairs hexString with
  | [] => Throw TypeError
  | pairs => Ok (map (fun byte => toUint8 (parseInt16 byte)) pairs)
  end.

(** ** [decodeFlips] *)

(** What [decode] of the [rlp] package returns: a buffer, or an array of
    such values. *)
Inductive rlp : Type :=
| RBuf (bytes : list Z)
| RList (items : list rlp).

Fixpoint rlp_value (r : rlp) : jsval :=
  match r with
  | RBuf bytes => JBuf bytes
  | RList items => JArr (map rlp_value items)
  end.

(** An entry of the requested hash list, [{hash, ready}]. *)
Record HashItem : Type := mkHashItem {
  hash : string;
  ready : jsval;
}.

(** An entry of the fetched content list, [{hash, hex}]. *)
Record HexItem : Type := mkHexItem {
  hexHash : string;
  hex : string;
}.

(** [x => x[0] || 0]: the first byte of a buffer, the first item of an
    array (an object, hence truthy), and 0 when there is none or when the
    byte is 0. *)
Definition first_or_zero (x : rlp) : jsval :=
  match x with
  | RBuf (b :: _) => if b =? 0 then JNum 0 else JNum b
  | RBuf [] => JNum 0
  | RList (y :: _) => rlp_value y
  | RList [] => JNum 0
  end.

(** [order => order.map(x => x[0] || 0)]. Over a buffer the callback sees
    the bytes, which are numbers: [x[0]] is [undefined] and every element
    of the resulting buffer is 0. *)
Definition decode_order (order : rlp) : jsval :=
  match order with
  | RList xs => JArr (map first_or_zero xs)
  | RBuf bytes => JBuf (map (fun _ => 0) bytes)
  end.

(** [decodedFlip[1].map(order => order.map(...))]. Field 1 must be there
    and have a [map]; when it is a buffer its elements are numbers, which
    have no [map], so only the empty buffer goes through. *)
Definition decode_orders (decodedFlip : rlp) : result jsval :=
  match decodedFlip with
  | RList (_ :: RList orders :: _) => Ok (JArr (map decode_order orders))
  | RList (_ :: RBuf [] :: _) => Ok (JBuf [])
  | RList (_ :: RBuf (_ :: _) :: _) => Throw TypeError
  | RList _ => Throw TypeError
  | RBuf _ => Throw TypeError
  end.

(** [decodedFlip[0]]. *)
Definition field0 (decodedFlip : rlp) : jsval :=
  match decodedFlip with
  | RList (p :: _) => rlp_value p
  | RList [] => JUndefined
  | RBuf (b :: _) => JNum b
  | RBuf [] => JUndefined
  end.

(** The flip object [{hash, ready, pics, orders, answer: null}]. *)
Definition mkFlip (hash : string) (ready pics orders : jsval) : obj :=
  {[ "hash" := JStr hash; "ready" := ready; "pics" := pics;
     "orders" := orders; "answer" := JNull ]}.

Section Decoder.

(** [decode] is imported from the [rlp] package, which is not part of the
    sources: it is a parameter here, from the bytes to the decoded value
    or an exception. *)
Variable decode : list Z -> result rlp.

(** The callback of [hashes.map] in [decodeFlips]. *)
Definition decodeFlip (hexes : list HexItem) (h : HashItem) : result obj :=
  match List.find (fun x => String.eqb (hexHash x) (hash h)) hexes with
  | Some found =>
      bytes ← fromHexString (substring2 (hex found));
      decodedFlip ← decode bytes;
      orders ← decode_orders decodedFlip;
      mret (mkFlip (hash h) (ready h) (field0 decodedFlip) orders)
  | None => mret (mkFlip (hash h) (ready h) JNull JNull)
  end.

Definition decodeFlips (hashes : list HashItem) (hexes : list HexItem)
  : result (list obj) :=
  mapM (decodeFlip hexes) hashes.

End Decoder.

(** ** [hasAnswer] *)

(** [Number.isFinite(answer)]: the value is a number, and a finite one. *)
Definition hasAnswer (answer : jsval) : bool :=
  match answer with
  | JNum _ => true
  | _ => false
  end.

(** ** The state of the store *)

Record State : Type := mkState {
  shortAnswers : list obj;
  longAnswers : list obj;
  epoch : option Z;
  shortAnswersSubmitted : bool;
  longAnswersSubmitted : bool;
  hashes : list HashItem;
  flips : list obj;
  loading : bool;
  currentIndex : Z;
  canSubmit : bool;
  error : option jsval;
}.

(** The per-ceremony part of the state. *)
Record CeremonyState : Type := mkCeremonyState {
  ceremonyHashes : list HashItem;
  ceremonyFlips : list obj;
  ceremonyLoading : bool;
  ceremonyCurrentIndex : Z;
  ceremonyCanSubmit : bool;
}.

Definition initialCeremonyState : CeremonyState :=
  {| ceremonyHashes := [];
     ceremonyFlips := [];
     ceremonyLoading := true;
     ceremonyCurrentIndex := 0;
     ceremonyCanSubmit := false |}.

(** The object spreads [{...state, field: v}], one per field. *)
Definition set_shortAnswers (v : list obj) (state : State) : State :=
  {| shortAnswers := v;
     longAnswers := longAnswers state;
     epoch := epoch state;
     shortAnswersSubmitted := shortAnswersSubmitted state;
     longAnswersSubmitted := longAnswersSubmitted state;
     hashes := hashes state;
     flips := flips state;
     loading := loading state;
     currentIndex := currentIndex state;
     canSubmit := canSubmit state;
     error := error state |}.

Definition set_longAnswers (v : list obj) (state : State) : State :=
  {| shortAnswers := shortAnswers state;
     longAnswers := v;
     epoch := epoch state;
     shortAnswersSubmitted := shortAnswersSubmitted state;
     longAnswersSubmitted := longAnswersSubmitted state;
     hashes := hashes state;
     flips := flips state;
     loading := loading state;
     currentIndex := currentIndex state;
     canSubmit := canSubmit state;
     error := error state |}.

Definition set_epoch (v : option Z) (state : State) : State :=
  {| shortAnswers := shortAnswers state;
     longAnswers := longAnswers state;
     epoch := v;
     shortAnswersSubmitted := shortAnswersSubmitted state;
     longAnswersSubmitted := longAnswersSubmitted state;
     hashes := hashes state;
     flips := flips state;
     loading := loading state;
     currentIndex := currentIndex state;
     canSubmit := canSubmit state;
     error := error state |}.

Definition set_shortAnswersSubmitted (v : bool) (state : State) : State :=
  {| shortAnswers := shortAnswers state;
     longAnswers := longAnswers state;
     epoch := epoch state;
     shortAnswersSubmitted := v;
     longAnswersSubmitted := longAnswersSubmitted state;
     hashes := hashes state;
     flips := flips state;
     loading := loading state;
     currentIndex := currentIndex state;
     canSubmit := canSubmit state;
     error := error state |}.

Definition set_longAnswersSubmitted (v : bool) (state : State) : State :=
  {| shortAnswers := shortAnswers state;
     longAnswers := longAnswers state;
     epoch := epoch state;
     shortAnswersSubmitted := shortAnswersSubmitted state;
     longAnswersSubmitted := v;
     hashes := hashes state;
     flips := flips state;
     loading := loading state;
     currentIndex := currentIndex state;
     canSubmit := canSubmit state;
     error := error state |}.

Definition set_hashes (v : list HashItem) (state : State) : State :=
  {| shortAnswers := shortAnswers state;
     longAnswers := longAnswers state;
     epoch := epoch state;
     shortAnswersSubmitted := shortAnswersSubmitted state;
     longAnswersSubmitted := longAnswersSubmitted state;
     hashes := v;
     flips := flips state;
     loading := loading state;
     currentIndex := currentIndex state;
     canSubmit := canSubmit state;
     error := error state |}.

Definition set_flips (v : list obj) (state : State) : State :=
  {| shortAnswers := shortAnswers state;
     longAnswers := longAnswers state;
     epoch := epoch state;
     shortAnswersSubmitted := shortAnswersSubmitted state;
     longAnswersSubmitted := longAnswersSubmitted state;
     hashes := hashes state;
     flips := v;
     loading := loading state;
     currentIndex := currentIndex state;
     canSubmit := canSubmit state;
     error := error state |}.

Definition set_loading (v : bool) (state : State) : State :=
  {| shortAnswers := shortAnswers state;
     longAnswers := longAnswers state;
     epoch := epoch state;
     shortAnswersSubmitted := shortAnswersSubmitted state;
     longAnswersSubmitted := longAnswersSubmitted state;
     hashes := hashes state;
     flips := flips state;
     loading := v;
     currentIndex := currentIndex state;
     canSubmit := canSubmit state;
     error := error state |}.

Definition set_currentIndex (v : Z) (state : State) : State :=
  {| shortAnswers := shortAnswers state;
     longAnswers := longAnswers state;
     epoch := epoch state;
     shortAnswersSubmitted := shortAnswersSubmitted state;
     longAnswersSubmitted := longAnswersSubmitted state;
     hashes := hashes state;
     flips := flips state;
     loading := loading state;
     currentIndex := v;
     canSubmit := canSubmit state;
     error := error state |}.

Definition set_canSubmit (v : bool) (state : State) : State :=
  {| shortAnswers := shortAnswers state;
     longAnswers := longAnswers state;
     epoch := epoch state;
     shortAnswersSubmitted := shortAnswersSubmitted state;
     longAnswersSubmitted := longAnswersSubmitted state;
     hashes := hashes state;
     flips := flips state;
     loading := loading state;
     currentIndex := currentIndex state;
     canSubmit := v;
     error := error state |}.

Definition set_error (v : option jsval) (state : State) : State :=
  {| shortAnswers := shortAnswers state;
     longAnswers := longAnswers state;
     epoch := epoch state;
     shortAnswersSubmitted := shortAnswersSubmitted state;
     longAnswersSubmitted := longAnswersSubmitted state;
     hashes := hashes state;
     flips := flips state;
     loading := loading state;
     currentIndex := currentIndex state;
     canSubmit := canSubmit state;
     error := v |}.

(** [{...state, ...ceremony}]. *)
Definition spreadCeremony (ceremony : CeremonyState) (state : State) : State :=
  set_hashes (ceremonyHashes ceremony)
    (set_flips (ceremonyFlips ceremony)
       (set_loading (ceremonyLoading ceremony)
          (set_currentIndex (ceremonyCurrentIndex ceremony)
             (set_canSubmit (ceremonyCanSubmit ceremony) state)))).

Definition initialState : State :=
  {| shortAnswers := [];
     longAnswers := [];
     epoch := None;
     shortAnswersSubmitted := false;
     longAnswersSubmitted := false;
     hashes := ceremonyHashes initialCeremonyState;
     flips := ceremonyFlips initialCeremonyState;
     loading := ceremonyLoading initialCeremonyState;
     currentIndex := ceremonyCurrentIndex initialCeremonyState;
     canSubmit := ceremonyCanSubmit initialCeremonyState;
     error := None |}.

(** The snapshot read from the validation database: any subset of the
    properties of the state. *)
Record Validation : Type := mkValidation {
  saved_shortAnswers : option (list obj);
  saved_longAnswers : option (list obj);
  saved_epoch : option (option Z);
  saved_shortAnswersSubmitted : option (bool);
  saved_longAnswersSubmitted : option (bool);
  saved_hashes : option (list HashItem);
  saved_flips : option (list obj);
  saved_loading : option (bool);
  saved_currentIndex : option (Z);
  saved_canSubmit : option (bool);
  saved_error : option jsval;
}.

(** [{...state, ...validation}]: the properties of the snapshot win. *)
Definition spreadValidation (validation : Validation) (state : State) : State :=
  {| shortAnswers := default (shortAnswers state) (saved_shortAnswers validation);
     longAnswers := default (longAnswers state) (saved_longAnswers validation);
     epoch := default (epoch state) (saved_epoch validation);
     shortAnswersSubmitted := default (shortAnswersSubmitted state) (saved_shortAnswersSubmitted validation);
     longAnswersSubmitted := default (longAnswersSubmitted state) (saved_longAnswersSubmitted validation);
     hashes := default (hashes state) (saved_hashes validation);
     flips := default (flips state) (saved_flips validation);
     loading := default (loading state) (saved_loading validation);
     currentIndex := default (currentIndex state) (saved_currentIndex validation);
     canSubmit := default (canSubmit state) (saved_canSubmit validation);
     error := match saved_error validation with Some e => Some e | None => error state end |}.

(** ** Events *)

(** The actions the reducer receives, one constructor per action type with
    the properties that the reducer reads; [OTHER type] is an action whose
    [type] is none of the thirteen constants. *)
Inductive Action : Type :=
| LOAD_VALIDATION (validation : Validation)
| SUBMIT_SHORT_ANSWERS (answers : list obj) (epoch : Z)
| SUBMIT_LONG_ANSWERS (answers : list obj) (epoch : Z)
| RESET_EPOCH (epoch : Z)
| START_FETCH_FLIPS
| FETCH_FLIPS_SUCCEEDED (hashes : list HashItem) (hexes : list HexItem)
| FETCH_FLIPS_FAILED (error : jsval)
| FETCH_MISSING_FLIPS_SUCCEEDED (hexes : list HexItem)
| ANSWER (option : jsval)
| NEXT
| PREV
| PICK (index : Z)
| REPORT_ABUSE
| OTHER (type : string).

(** The [type] property of an action. *)
Definition action_type (action : Action) : string :=
  match action with
  | LOAD_VALIDATION _ => "LOAD_VALIDATION"
  | SUBMIT_SHORT_ANSWERS _ _ => "SUBMIT_SHORT_ANSWERS"
  | SUBMIT_LONG_ANSWERS _ _ => "SUBMIT_LONG_ANSWERS"
  | RESET_EPOCH _ => "RESET_EPOCH"
  | START_FETCH_FLIPS => "START_FETCH_FLIPS"
  | FETCH_FLIPS_SUCCEEDED _ _ => "FETCH_FLIPS_SUCCEEDED"
  | FETCH_FLIPS_FAILED _ => "FETCH_FLIPS_FAILED"
  | FETCH_MISSING_FLIPS_SUCCEEDED _ => "FETCH_MISSING_FLIPS_SUCCEEDED"
  | ANSWER _ => "ANSWER"
  | NEXT => "NEXT"
  | PREV => "PREV"
  | PICK _ => "PICK"
  | REPORT_ABUSE => "REPORT_ABUSE"
  | OTHER type => type
  end.

(** The action types of the [case] labels. *)
Definition listed (action : Action) : Prop :=
  match action with
  | OTHER _ => False
  | _ => True
  end.

(** ** [validationReducer] *)

(** [flips.map(x => x.answer)]. *)
Definition answers_of (flips : list obj) : list jsval :=
  map (fun x => prop x "answer") flips.

(** The array literal of the [ANSWER] and [REPORT_ABUSE] cases: the flips
    before the cursor, the flip under the cursor with its answer replaced
    (spreading [undefined] when there is none adds no property), and the
    flips after it. *)
Definition answered (state : State) (option : jsval) : list obj :=
  js_slice (flips state) 0 (currentIndex state)
  ++ [<["answer" := option]>
        (default ∅ (js_index (flips state) (currentIndex state)))]
  ++ js_slice_from (flips state) (currentIndex state + 1).

Section Reducer.

Variable decode : list Z -> result rlp.

Definition validationReducer (state : State) (action : Action)
  : result State :=
  match action with
  | LOAD_VALIDATION validation =>
      Ok (spreadValidation validation state)
  | SUBMIT_SHORT_ANSWERS answers epoch =>
      Ok (spreadCeremony initialCeremonyState
            (set_shortAnswersSubmitted true
               (set_epoch (Some epoch)
                  (set_shortAnswers answers state))))
  | SUBMIT_LONG_ANSWERS answers epoch =>
      Ok (spreadCeremony initialCeremonyState
            (set_longAnswersSubmitted true
               (set_epoch (Some epoch)
                  (set_longAnswers answers state))))
  | RESET_EPOCH epoch =>
      Ok (spreadCeremony initialCeremonyState
            (set_longAnswersSubmitted false
               (set_shortAnswersSubmitted false
                  (set_epoch (Some epoch)
                     (set_longAnswers []
                        (set_shortAnswers [] state))))))
  | START_FETCH_FLIPS =>
      Ok (set_loading true state)
  | FETCH_FLIPS_SUCCEEDED hashes hexes =>
      flips ← decodeFlips decode hashes hexes;
      Ok (set_loading false (set_flips flips state))
  | FETCH_MISSING_FLIPS_SUCCEEDED hexes =>
      flips ← decodeFlips decode (hashes state) hexes;
      Ok (set_loading false (set_flips flips state))
  | FETCH_FLIPS_FAILED error =>
      Ok (set_error (Some error) (set_loading true state))
  | PREV =>
      Ok (set_currentIndex (Z.max (currentIndex state - 1) 0) state)
  | NEXT =>
      Ok (set_currentIndex
            (Z.min (currentIndex state + 1)
               (Z.of_nat (length (flips state)) - 1))
            state)
  | PICK index =>
      Ok (set_currentIndex index state)
  | ANSWER option =>
      let flips' := answered state option in
      Ok (set_canSubmit (forallb hasAnswer (answers_of flips'))
            (set_flips flips' state))
  | REPORT_ABUSE =>
      let flips' := answered state (JNum AnswerType.Inappropriate) in
      Ok (set_canSubmit (forallb hasAnswer (answers_of flips'))
            (set_currentIndex
               (Z.min (currentIndex state + 1)
                  (Z.of_nat (length (flips state)) - 1))
               (set_flips flips' state)))
  | OTHER type =>
      Throw (Error ("Unhandled action type: " +:+ type))
  end.

(** The reducer applied to a queue of actions, one at a time; an
    exception ends the run. *)
Fixpoint dispatchAll (state : State) (actions : list Action)
  : result State :=
  match actions with
  | [] => Ok state
  | action :: rest =>
      state' ← validationReducer state action;
      dispatchAll state' rest
  end.

End Reducer.

(** ** Submission *)

(** [prepareAnswers]. *)
Definition prepareAnswers (flips : list obj) : list obj :=
  map (fun flip =>
         {[ "answer" := if hasAnswer (prop flip "answer")
                        then prop flip "answer" else JNum 0;
            "easy" := JBool false ]} : obj)
      flips.

(** What the provider does to the world: calls of the submission
    transport, writes to the validation database, and dispatches. *)
Inductive Effect : Type :=
| ApiSubmitShortAnswers (payload : list obj) (a b : Z)
| ApiSubmitLongAnswers (payload : list obj) (a b : Z)
| DbSetShortAnswers (payload : list obj) (epoch : Z)
| DbSetLongAnswers (payload : list obj) (epoch : Z)
| Dispatch (action : Action).

(** [submitShortAnswers(dispatch, flips, epoch)]: the transport is called
    first, and what follows the [await] runs when the call [resolved]. *)
Definition submitShortAnswers (resolved : bool) (flips : list obj) (epoch : Z)
  : list Effect :=
  let payload := prepareAnswers flips in
  ApiSubmitShortAnswers payload 0 0
  :: if resolved
     then [DbSetShortAnswers payload epoch;
           Dispatch (SUBMIT_SHORT_ANSWERS payload epoch)]
     else [].

Definition submitLongAnswers (resolved : bool) (flips : list obj) (epoch : Z)
  : list Effect :=
  let payload := prepareAnswers flips in
  ApiSubmitLongAnswers payload 0 0
  :: if resolved
     then [DbSetLongAnswers payload epoch;
           Dispatch (SUBMIT_LONG_ANSWERS payload epoch)]
     else [].

(** What [useEpochState] reports, when it is not [null]. *)
Record EpochState : Type := mkEpochState {
  epochNumber : Z;
  currentPeriod : EpochPeriod;
}.

Definition period_eqb (p q : EpochPeriod) : bool :=
  match p, q with
  | ShortSession, ShortSession => true
  | LongSession, LongSession => true
  | OtherPeriod, OtherPeriod => true
  | _, _ => false
  end.

(** [sendAnswers(type)] inside the third effect of [ValidationProvider]. *)
Definition sendAnswers (resolved : bool) (state : State) (epoch : EpochState)
    (type : SessionType) : list Effect :=
  match type with
  | Short => submitShortAnswers resolved (shortAnswers state) (epochNumber epoch)
  | Long => submitLongAnswers resolved (longAnswers state) (epochNumber epoch)
  end.

(** The third effect of [ValidationProvider], run with the current
    [seconds], [epoch] and [state]: the effects it issues, or the exception
    of reading [currentPeriod] from a [null] epoch. *)
Definition submissionEffect (resolved : bool) (seconds : Z)
    (epoch : option EpochState) (state : State) : result (list Effect) :=
  if seconds =? 1 then
    let hasSomeAnswer := existsb hasAnswer (answers_of (flips state)) in
    match epoch with
    | None => Throw TypeError
    | Some ep =>
        if period_eqb (currentPeriod ep) ShortSession
           && shortAnswersSubmitted state && hasSomeAnswer
        then Ok (sendAnswers resolved state ep Short)
        else if period_eqb (currentPeriod ep) LongSession
                && longAnswersSubmitted state && hasSomeAnswer
        then Ok (sendAnswers resolved state ep Long)
        else Ok []
    end
  else Ok [].

(** ** A decoder of length-prefixed records *)

(** The big-endian value of a sequence of bytes. *)
Fixpoint be_value (acc : Z) (bytes : list Z) : Z :=
  match bytes with
  | [] => acc
  | b :: rest => be_value (256 * acc + b) rest
  end.

Definition invalid_rlp {A} : result A := Throw (Error "invalid RLP").

(** [split_exact n l]: the first [n] elements of [l] and what follows, or
    an exception when [l] is shorter. *)
Definition split_exact (n : nat) (l : list Z) : result (list Z * list Z) :=
  if (length l <? n)%nat then invalid_rlp else Ok (take n l, drop n l).

(** Modelled from the spec: [decode] of the [rlp] package is not part of
    the sources. The spec calls its input a length-prefixed binary record;
    this is the recursive-length-prefix format: a byte below 0x80 is
    itself, 0x80+n (n up to 55) announces a string of n bytes, 0xb7+k a
    string whose length is written on k bytes, 0xc0+n and 0xf7+k the same
    for a list, whose payload is a sequence of items. One item is read from
    the front of [input]; the other component is the remainder. *)
Fixpoint rlp_item (fuel : nat) (input : list Z) {struct fuel}
  : result (rlp * list Z) :=
  match fuel with
  | O => invalid_rlp
  | S fuel' =>
      let items :=
        fix items (count : nat) (payload : list Z) {struct count}
          : result (list rlp) :=
          match payload, count with
          | [], _ => Ok []
          | _ :: _, O => invalid_rlp
          | _ :: _, S count' =>
              '(item, rest) ← rlp_item fuel' payload;
              others ← items count' rest;
              Ok (item :: others)
          end in
      match input with
      | [] => invalid_rlp
      | b :: rest =>
          if b <=? 0x7f then Ok (RBuf [b], rest)
          else if b <=? 0xb7 then
            '(data, remainder) ← split_exact (Z.to_nat (b - 0x80)) rest;
            Ok (RBuf data, remainder)
          else if b <=? 0xbf then
            '(len, body) ← split_exact (Z.to_nat (b - 0xb7)) rest;
            '(data, remainder) ← split_exact (Z.to_nat (be_value 0 len)) body;
            Ok (RBuf data, remainder)
          else if b <=? 0xf7 then
            '(payload, remainder) ← split_exact (Z.to_nat (b - 0xc0)) rest;
            decoded ← items (length payload) payload;
            Ok (RList decoded, remainder)
          else
            '(len, body) ← split_exact (Z.to_nat (b - 0xf7)) rest;
            '(payload, remainder) ← split_exact (Z.to_nat (be_value 0 len)) body;
            decoded ← items (length payload) payload;
            Ok (RList decoded, remainder)
      end
  end.

(** The whole input must be one item. *)
Definition rlp_decode (input : list Z) : result rlp :=
  '(data, remainder) ← rlp_item (S (length input)) input;
  match remainder with
  | [] => Ok data
  | _ :: _ => Throw (Error "invalid remainder")
  end.

(** ** The vocabulary of the statements *)

(** [found] is the first entry of [hexes] whose hash is [h]. *)
Definition first_match (hexes : list HexItem) (h : string) (found : HexItem)
  : Prop :=
  exists before after,
    hexes = before ++ found :: after /\
    hexHash found = h /\
    Forall (fun x => hexHash x <> h) before.

(** The record of the spec: a list whose field 0 is the image list and
    whose field 1 is a list of orders, each a list of byte fields. The
    decoder does not look at the fields after these two. *)
Definition spec_record (pics : rlp) (orders : list (list (list Z)))
    (others : list rlp) : rlp :=
  RList (pics :: RList (map (fun order => RList (map RBuf order)) orders)
           :: others).

(** The orders of the spec: each byte field as the unsigned integer of its
    first byte, and 0 when it is empty. *)
Definition spec_orders (orders : list (list (list Z))) : jsval :=
  JArr (map (fun order => JArr (map (fun field => JNum (hd 0 field)) order))
          orders).



(** The events that end a session. *)
Definition clearing_event (action : Action) : Prop :=
  match action with
  | RESET_EPOCH _ | SUBMIT_SHORT_ANSWERS _ _ | SUBMIT_LONG_ANSWERS _ _ => True
  | _ => False
  end.



(** ** Example states and contents *)

(** A short session with one flip answered [Left] and nothing submitted
    yet. *)
Definition oneAnswered : State :=
  set_flips [{["answer" := JNum AnswerType.Left]}] initialState.

(** A state with two flips and the cursor on the second. *)
Definition twoFlips : State :=
  set_currentIndex 1
    (set_flips [mkFlip "a" (JBool true) JNull JNull;
                mkFlip "b" (JBool true) JNull JNull] initialState).

(** The flips and the payload of the example. *)
Definition exampleFlips : list obj :=
  [ {["answer" := JNum AnswerType.Left]};
    {["answer" := JNum AnswerType.None]};
    {["answer" := JUndefined]} ].

Definition examplePayload : list obj :=
  [ {["answer" := JNum 1; "easy" := JBool false]};
    {["answer" := JNum 0; "easy" := JBool false]};
    {["answer" := JNum 0; "easy" := JBool false]} ].

(** The request and the contents of the example: two hashes, and for the
    first one the record of the images [["imgA"]] and the orders
    [[[0, 1]]]; [malformedHex] announces a string of five bytes and holds
    one. *)
Definition exampleHashes : list HashItem :=
  [mkHashItem "a" (JBool true); mkHashItem "b" (JBool false)].

Definition exampleHex : string := "0xcac584696d6741c3c28001".

Definition malformedHex : string := "0xb80501".

Definition exampleDecoded : list obj :=
  [mkFlip "a" (JBool true)
     (JArr [JBuf [105; 109; 103; 65]]) (JArr [JArr [JNum 0; JNum 1]]);
   mkFlip "b" (JBool false) JNull JNull].

(** ** The epoch effect *)

(** What the second effect of [ValidationProvider] does to the world. *)
Inductive EpochEffect : Type :=
| DbResetValidation (epoch : Z)
| DispatchEpoch (action : Action)
| ArchiveFlips.

(** The second effect of [ValidationProvider], run with the current
    [epoch] and with what [db.getValidation()] returns ([None] when it is
    [undefined], whose destructuring raises). The epoch of the snapshot is
    compared with [!==]: an absent or [null] epoch differs from any
    number. *)
Definition epochEffect (epoch : option EpochState) (saved : option Validation)
  : result (list EpochEffect) :=
  match epoch with
  | None => Ok []
  | Some ep =>
      match saved with
      | None => Throw TypeError
      | Some validation =>
          let reset :=
            [DbResetValidation (epochNumber ep);
             DispatchEpoch (RESET_EPOCH (epochNumber ep));
             ArchiveFlips] in
          match saved_epoch validation with
          | Some (Some savedEpoch) =>
              if epochNumber ep =? savedEpoch then Ok [] else Ok reset
          | _ => Ok reset
          end
      end
  end.

(** ** More vocabulary *)

(** The two-digit lowercase hexadecimal rendering of bytes, the inverse of
    [fromHexString] on them. *)
Definition hex_char (d : Z) : ascii :=
  ascii_of_nat (Z.to_nat (if d <? 10 then 48 + d else 87 + d)).

Definition hex_of_byte (b : Z) : string :=
  String (hex_char (b / 16)) (String (hex_char (b mod 16)) EmptyString).

Fixpoint hex_of_bytes (bytes : list Z) : string :=
  match bytes with
  | [] => EmptyString
  | b :: rest => hex_of_byte b +:+ hex_of_bytes rest
  end.

(** The two digits of a byte are read back as the byte, and neither is a
    line terminator: checked on the 256 bytes. *)
Definition hex_of_byte_reads (b : Z) : bool :=
  match hex_of_byte b with
  | String c (String d EmptyString) =>
      negb (is_line_terminator c) && negb (is_line_terminator d)
      && (toUint8 (parseInt16 (hex_of_byte b)) =? b)
  | _ => false
  end.

(** The characters of a string. *)
Fixpoint chars (s : string) : list ascii :=
  match s with
  | EmptyString => []
  | String c s' => c :: chars s'
  end.

(** A buffer or an array: what a decoded field is when it is there. *)
Definition is_object (v : jsval) : Prop :=
  match v with
  | JBuf _ | JArr _ => True
  | _ => False
  end.

(** The flip that stands for a content not yet fetched. *)
Definition pendingFlip (h : HashItem) : obj :=
  mkFlip (hash h) (ready h) JNull JNull.

(** The actions of a ceremony: all the listed ones but those that write
    the submitted answers, the flags and the epoch. *)
Definition ceremony_action (action : Action) : Prop :=
  match action with
  | LOAD_VALIDATION _ | SUBMIT_SHORT_ANSWERS _ _ | SUBMIT_LONG_ANSWERS _ _
  | RESET_EPOCH _ => False
  | _ => True
  end.

(** The actions that cannot set a submitted flag: every one but the
    snapshot load and the two submissions. *)
Definition unsubmitting_action (action : Action) : Prop :=
  match action with
  | LOAD_VALIDATION _ | SUBMIT_SHORT_ANSWERS _ _ | SUBMIT_LONG_ANSWERS _ _ =>
      False
  | _ => True
  end.

(** The two fetch-success actions. *)
Definition fetch_success (action : Action) : Prop :=
  match action with
  | FETCH_FLIPS_SUCCEEDED _ _ | FETCH_MISSING_FLIPS_SUCCEEDED _ => True
  | _ => False
  end.

(** A snapshot that has every property of a state. *)
Definition snapshot_of (state : State) : Validation :=
  {| saved_shortAnswers := Some (shortAnswers state);
     saved_longAnswers := Some (longAnswers state);
     saved_epoch := Some (epoch state);
     saved_shortAnswersSubmitted := Some (shortAnswersSubmitted state);
     saved_longAnswersSubmitted := Some (longAnswersSubmitted state);
     saved_hashes := Some (hashes state);
     saved_flips := Some (flips state);
     saved_loading := Some (loading state);
     saved_currentIndex := Some (currentIndex state);
     saved_canSubmit := Some (canSubmit state);
     saved_error := error state |}.

(** The snapshot with no property: what spreading [undefined] or [{}]
    adds. *)
Definition emptyValidation : Validation :=
  {| saved_shortAnswers := None;
     saved_longAnswers := None;
     saved_epoch := None;
     saved_shortAnswersSubmitted := None;
     saved_longAnswersSubmitted := None;
     saved_hashes := None;
     saved_flips := None;
     saved_loading := None;
     saved_currentIndex := None;
     saved_canSubmit := None;
     saved_error := None |}.

(** The state after [NEXT] on the initial state and a fetch of the
    example: the cursor is at -1 and there are two flips. *)
Definition cursorBeforeFlips : State :=
  set_loading false
    (set_flips exampleDecoded (set_currentIndex (-1) initialState)).

(** The example fetched into the initial state, the cursor on the first
    flip. *)
Definition fetchedExample : State :=
  set_loading false (set_flips exampleDecoded initialState).

(** A state in which the short answers of the example were submitted,
    and the events of a ceremony that follows. *)
Definition submittedShort : State :=
  set_shortAnswersSubmitted true
    (set_shortAnswers examplePayload initialState).

Definition ceremonyRun : list Action :=
  [FETCH_FLIPS_SUCCEEDED exampleHashes [mkHexItem "a" exampleHex];
   ANSWER (JNum AnswerType.Left); NEXT; REPORT_ABUSE;
   FETCH_FLIPS_FAILED (JStr "timeout")].

(** A state with an error, and a run with a fetch, an answer, a
    submission and a reset. *)
Definition failedFetch : State :=
  set_error (Some (JStr "timeout")) (set_loading true initialState).

Definition recoveryRun : list Action :=
  [FETCH_FLIPS_SUCCEEDED exampleHashes [mkHexItem "a" exampleHex];
   ANSWER (JNum AnswerType.Left);
   SUBMIT_SHORT_ANSWERS examplePayload 7; RESET_EPOCH 8].

(** A whole session from the initial state, every flip answered. *)
Definition answeringRun : list Action :=
  [RESET_EPOCH 7;
   FETCH_FLIPS_SUCCEEDED exampleHashes [mkHexItem "a" exampleHex];
   ANSWER (JNum AnswerType.Left); NEXT; ANSWER (JNum AnswerType.Right)].

(** * Properties *)

(** ** Array primitives inside and outside the range *)

Section Slices.

Context {A : Type}.
Implicit Types (l : list A) (i : Z).

Lemma js_index_in_range l i :
  0 <= i < Z.of_nat (length l) -> js_index l i = l !! Z.to_nat i.
Proof.
  intros Hi. unfold js_index.
  destruct (Z.leb_spec 0 i); [reflexivity | lia].
Qed.

Lemma js_index_beyond l i :
  Z.of_nat (length l) <= i -> js_index l i = None.
Proof.
  intros Hi. unfold js_index.
  destruct (Z.leb_spec 0 i); [| reflexivity].
  apply lookup_ge_None. lia.
Qed.

Lemma js_slice_prefix l i :
  0 <= i -> js_slice l 0 i = take (Z.to_nat i) l.
Proof.
  intros Hi. unfold js_slice, relative_index.
  change (0 <? 0) with false. cbv iota.
  destruct (Z.ltb_spec i 0); [lia |].
  rewrite (Z.min_l 0) by lia. rewrite drop_0, Z.sub_0_r.
  destruct (Z.le_gt_cases i (Z.of_nat (length l))).
  - rewrite Z.min_l by lia. reflexivity.
  - rewrite Z.min_r by lia. rewrite Nat2Z.id.
    rewrite !take_ge by lia. reflexivity.
Qed.

Lemma js_slice_from_suffix l i :
  0 <= i -> js_slice_from l i = drop (Z.to_nat i) l.
Proof.
  intros Hi. unfold js_slice_from, js_slice, relative_index.
  destruct (Z.ltb_spec i 0); [lia |].
  destruct (Z.ltb_spec (Z.of_nat (length l)) 0); [lia |].
  rewrite (Z.min_l (Z.of_nat (length l))) by lia.
  destruct (Z.le_gt_cases i (Z.of_nat (length l))).
  - rewrite Z.min_l by lia. apply take_ge. rewrite length_drop. lia.
  - rewrite Z.min_r by lia. rewrite Nat2Z.id.
    rewrite !drop_ge by lia. apply take_nil.
Qed.

End Slices.

(** With the cursor on a flip, the array literal of [ANSWER] is that flip
    updated in place. *)
Lemma answered_in_range state option (f : obj) :
  0 <= currentIndex state ->
  flips state !! Z.to_nat (currentIndex state) = Some f ->
  answered state option
  = <[Z.to_nat (currentIndex state) := <["answer" := option]> f]> (flips state).
Proof.
  intros Hpos Hf. unfold answered.
  pose proof (lookup_lt_Some _ _ _ Hf) as Hlt.
  rewrite js_index_in_range by lia. rewrite Hf. simpl.
  rewrite js_slice_prefix by lia.
  rewrite js_slice_from_suffix by lia.
  replace (Z.to_nat (currentIndex state + 1))
    with (S (Z.to_nat (currentIndex state))) by lia.
  symmetry. apply insert_take_drop. exact Hlt.
Qed.

(** With the cursor at or beyond the end, it is the flips followed by a
    new object that has the answer and nothing else. *)
Lemma answered_beyond state option :
  Z.of_nat (length (flips state)) <= currentIndex state ->
  answered state option = flips state ++ [{["answer" := option]}].
Proof.
  intros Hge. unfold answered.
  rewrite js_index_beyond by lia. simpl.
  rewrite js_slice_prefix by lia.
  rewrite js_slice_from_suffix by lia.
  rewrite take_ge by lia. rewrite drop_ge by lia.
  rewrite insert_empty. reflexivity.
Qed.

(** ** The submission trigger *)





(** C1: on the tick with 1 second left, in a short session with a real
    answer and [shortAnswersSubmitted] false, the effect issues nothing;
    with the flag already true it submits, and the payload is built from
    [shortAnswers], not from the flips. *)
Theorem submission_guard_inverted :
  shortAnswersSubmitted oneAnswered = false /\
  existsb hasAnswer (answers_of (flips oneAnswered)) = true /\
  submissionEffect true 1 (Some (mkEpochState 7 ShortSession)) oneAnswered
  = Ok [] /\
  submissionEffect true 1 (Some (mkEpochState 7 ShortSession))
    (set_shortAnswersSubmitted true oneAnswered)
  = Ok [ApiSubmitShortAnswers [] 0 0;
        DbSetShortAnswers [] 7;
        Dispatch (SUBMIT_SHORT_ANSWERS [] 7)].
Proof. repeat split; reflexivity. Qed.

(** ** The cursor *)

(** C2, as the code has it: [PREV] yields [max(currentIndex-1, 0)] and
    [NEXT] yields [min(currentIndex+1, len(flips)-1)]; from a cursor within
    [0 .. len(flips)-1] both stay within it; on an empty [flips] with the
    cursor at 0, [PREV] leaves the state as it is. *)
Theorem next_prev_currentIndex decode state :
  validationReducer decode state PREV
  = Ok (set_currentIndex (Z.max (currentIndex state - 1) 0) state) /\
  validationReducer decode state NEXT
  = Ok (set_currentIndex
          (Z.min (currentIndex state + 1)
             (Z.of_nat (length (flips state)) - 1)) state) /\
  (0 <= currentIndex state <= Z.of_nat (length (flips state)) - 1 ->
   forall action state',
     action = NEXT \/ action = PREV ->
     validationReducer decode state action = Ok state' ->
     flips state' = flips state /\
     0 <= currentIndex state' <= Z.of_nat (length (flips state')) - 1) /\
  (flips state = [] -> currentIndex state = 0 ->
   validationReducer decode state PREV = Ok state).
Proof.
  split; [reflexivity |]. split; [reflexivity |]. split.
  - intros Hr action state' [-> | ->] Hstep; simpl in Hstep;
      injection Hstep as <-; destruct state; simpl in *; split;
      try reflexivity; lia.
  - intros _ Hci. destruct state; simpl in *. subst. reflexivity.
Qed.

Lemma next_prev_currentIndex_witness :
  (forall action state',
     action = NEXT \/ action = PREV ->
     validationReducer rlp_decode twoFlips action = Ok state' ->
     flips state' = flips twoFlips /\
     0 <= currentIndex state' <= Z.of_nat (length (flips state')) - 1) /\
  validationReducer rlp_decode initialState PREV
  = Ok initialState.
Proof.
  split.
  - apply (next_prev_currentIndex rlp_decode twoFlips).
    simpl. lia.
  - apply (next_prev_currentIndex rlp_decode initialState);
      reflexivity.
Defined.

(** C2 as stated fails: on the initial state, whose [flips] is empty and
    whose cursor is 0, [NEXT] moves the cursor to -1. *)
Lemma next_on_empty_flips_leaves_range :
  ~ (forall state state',
       flips state = [] -> currentIndex state = 0 ->
       validationReducer rlp_decode state NEXT = Ok state' ->
       currentIndex state' = 0).
Proof.
  intros H.
  specialize (H initialState (set_currentIndex (-1) initialState)
                eq_refl eq_refl eq_refl).
  discriminate H.
Qed.

(** ** Resets *)

(** C7: [RESET_EPOCH] empties both answer lists, clears both submitted
    flags, records the epoch and resets the per-ceremony fields; [error] is
    the only field it keeps. The step is the same whether or not the epoch
    differs from the stored one. *)
Theorem reset_epoch_step decode state e :
  validationReducer decode state (RESET_EPOCH e)
  = Ok {| shortAnswers := [];
          longAnswers := [];
          epoch := Some e;
          shortAnswersSubmitted := false;
          longAnswersSubmitted := false;
          hashes := [];
          flips := [];
          loading := true;
          currentIndex := 0;
          canSubmit := false;
          error := error state |}.
Proof. reflexivity. Qed.

(** ** Submitting *)

Lemma prepareAnswers_length flips :
  length (prepareAnswers flips) = length flips.
Proof. unfold prepareAnswers. apply length_map. Qed.

(** C5: the payload of the example has one record per flip, the
    unanswered ones with answer 0; [submitShortAnswers] sends it, stores it
    and dispatches it; and the [SUBMIT_SHORT_ANSWERS] step stores the
    payload, sets [shortAnswersSubmitted], resets the per-ceremony fields
    and leaves [longAnswers] and [longAnswersSubmitted] alone. *)
Theorem submit_short_answers_example decode state e :
  prepareAnswers exampleFlips = examplePayload /\
  submitShortAnswers true exampleFlips e
  = [ApiSubmitShortAnswers examplePayload 0 0;
     DbSetShortAnswers examplePayload e;
     Dispatch (SUBMIT_SHORT_ANSWERS examplePayload e)] /\
  validationReducer decode state (SUBMIT_SHORT_ANSWERS examplePayload e)
  = Ok {| shortAnswers := examplePayload;
          longAnswers := longAnswers state;
          epoch := Some e;
          shortAnswersSubmitted := true;
          longAnswersSubmitted := longAnswersSubmitted state;
          hashes := ceremonyHashes initialCeremonyState;
          flips := ceremonyFlips initialCeremonyState;
          loading := ceremonyLoading initialCeremonyState;
          currentIndex := ceremonyCurrentIndex initialCeremonyState;
          canSubmit := ceremonyCanSubmit initialCeremonyState;
          error := error state |}.
Proof.
  assert (Hp : prepareAnswers exampleFlips = examplePayload)
    by (vm_compute; reflexivity).
  split; [exact Hp |]. split; [| reflexivity].
  unfold submitShortAnswers. rewrite Hp. reflexivity.
Qed.

(** ** Failures of the reducer *)

(** C8, as the code has it: the reducer raises exactly on an action of an
    unlisted type and on a fetch-success action whose decoding raises. A
    [PICK] never raises, whatever its index, and stores the index as the
    cursor. *)
Theorem reducer_raises_iff decode state action :
  ((exists e, validationReducer decode state action = Throw e) <->
   (exists type, action = OTHER type) \/
   (exists hashes hexes e,
      action = FETCH_FLIPS_SUCCEEDED hashes hexes /\
      decodeFlips decode hashes hexes = Throw e) \/
   (exists hexes e,
      action = FETCH_MISSING_FLIPS_SUCCEEDED hexes /\
      decodeFlips decode (hashes state) hexes = Throw e)) /\
  (forall type,
     validationReducer decode state (OTHER type)
     = Throw (Error ("Unhandled action type: " +:+ type))) /\
  (forall index,
     validationReducer decode state (PICK index)
     = Ok (set_currentIndex index state)).
Proof.
  split; [| split; reflexivity].
  split.
  - intros [e He].
    destruct action as [| | | | | hs hx | | hx | | | | | | type];
      simpl in He; try discriminate He.
    + right; left. exists hs, hx.
      destruct (decodeFlips decode hs hx) as [fl | e'];
        [discriminate He | eauto].
    + right; right. exists hx.
      destruct (decodeFlips decode (hashes state) hx) as [fl | e'];
        [discriminate He | eauto].
    + left. eauto.
  - intros [[type ->] | [(hs & hx & e & -> & He) | (hx & e & -> & He)]];
      simpl; [eauto | rewrite He; eauto ..].
Qed.

(** C8 as stated fails: on the initial state, whose [flips] is empty, no
    index is in range, and [PICK 99] returns a state all the same. *)
Lemma pick_out_of_range_returns :
  flips initialState = [] /\
  validationReducer rlp_decode initialState (PICK 99)
  = Ok (set_currentIndex 99 initialState) /\
  ~ (exists e, validationReducer rlp_decode initialState (PICK 99) = Throw e).
Proof.
  split; [reflexivity |]. split; [reflexivity |].
  intros [e He]. discriminate He.
Qed.

(** ** The frame of the fetch-success steps *)

(** C9: when the decoding returns, [FETCH_FLIPS_SUCCEEDED] replaces [flips]
    and clears [loading], and nothing else: the [hashes] of the state are
    those it had, and a following [FETCH_MISSING_FLIPS_SUCCEEDED] decodes
    against them, not against the hashes of the first action. *)
Theorem fetch_flips_succeeded_frame decode state hs hexes decoded :
  decodeFlips decode hs hexes = Ok decoded ->
  exists state',
    validationReducer decode state (FETCH_FLIPS_SUCCEEDED hs hexes)
    = Ok state' /\
    state' = {| shortAnswers := shortAnswers state;
                longAnswers := longAnswers state;
                epoch := epoch state;
                shortAnswersSubmitted := shortAnswersSubmitted state;
                longAnswersSubmitted := longAnswersSubmitted state;
                hashes := hashes state;
                flips := decoded;
                loading := false;
                currentIndex := currentIndex state;
                canSubmit := canSubmit state;
                error := error state |} /\
    forall hexes',
      validationReducer decode state' (FETCH_MISSING_FLIPS_SUCCEEDED hexes')
      = (redecoded ← decodeFlips decode (hashes state) hexes';
         Ok (set_loading false (set_flips redecoded state'))).
Proof.
  intros Hd. eexists. split.
  - simpl. rewrite Hd. reflexivity.
  - split; reflexivity.
Qed.

(** ** Answering without a flip under the cursor *)

Lemma forallb_hasAnswer_single (option : jsval) :
  forallb hasAnswer (answers_of [{["answer" := option]}]) = hasAnswer option.
Proof.
  unfold answers_of, prop. simpl. rewrite lookup_singleton_eq. simpl.
  apply andb_true_r.
Qed.

(** C10: with the cursor at or beyond the end of [flips], [ANSWER] returns
    a state whose [flips] is one longer; when [flips] was empty, the result
    is a single object that has the answer and no other property, and
    [canSubmit] is [hasAnswer] of the option. *)
Theorem answer_beyond_flips_appends decode state option :
  Z.of_nat (length (flips state)) <= currentIndex state ->
  exists state',
    validationReducer decode state (ANSWER option) = Ok state' /\
    length (flips state') = S (length (flips state)) /\
    (flips state = [] ->
     exists f : obj,
       flips state' = [f] /\
       f !! "answer" = Some option /\
       dom f = {["answer"]} /\
       canSubmit state' = hasAnswer option).
Proof.
  intros Hge. eexists. split; [reflexivity |].
  simpl. rewrite (answered_beyond _ _ Hge). split.
  - rewrite length_app. simpl. lia.
  - intros Hnil. rewrite Hnil. simpl.
    exists {["answer" := option]}. split; [reflexivity |].
    split; [apply lookup_singleton_eq |].
    split; [apply dom_singleton_L |].
    apply forallb_hasAnswer_single.
Qed.

Lemma answer_beyond_flips_appends_witness :
  exists state',
    validationReducer rlp_decode initialState (ANSWER (JNum 2)) = Ok state' /\
    length (flips state') = S (length (flips initialState)) /\
    (flips initialState = [] ->
     exists f : obj,
       flips state' = [f] /\
       f !! "answer" = Some (JNum 2) /\
       dom f = {["answer"]} /\
       canSubmit state' = hasAnswer (JNum 2)).
Proof.
  apply (answer_beyond_flips_appends rlp_decode initialState (JNum 2)).
  simpl. lia.
Defined.

(** ** Decoding *)

(** [mapM] in the exception monad returns when the callback returns on
    every element, element by element and in order. *)
Lemma mapM_result_ok {A B} (f : A -> result B) (l : list A) :
  (forall x, x ∈ l -> exists y, f x = Ok y) ->
  exists ys,
    mapM f l = Ok ys /\
    length ys = length l /\
    forall i x, l !! i = Some x -> exists y, f x = Ok y /\ ys !! i = Some y.
Proof.
  induction l as [| a l IH]; intros Hall.
  - exists []. repeat split. intros i x Hi. discriminate Hi.
  - destruct (Hall a) as [b Hb]; [left |].
    destruct IH as (ys & Hys & Hlen & Hnth).
    { intros x Hx. apply Hall. right. exact Hx. }
    exists (b :: ys). split; [| split].
    + simpl. rewrite Hb. simpl. rewrite Hys. reflexivity.
    + simpl. congruence.
    + intros [| i] x Hi; simpl in Hi.
      * injection Hi as <-. eauto.
      * apply Hnth. exact Hi.
Qed.

(** It raises as soon as the callback raises on some element. *)
Lemma mapM_result_throw {A B} (f : A -> result B) (l : list A) x e :
  x ∈ l -> f x = Throw e -> exists e', mapM f l = Throw e'.
Proof.
  induction l as [| a l IH]; intros Hx He.
  - inversion Hx.
  - simpl. destruct (f a) as [b | e0] eqn:Ha; simpl; [| eauto].
    apply elem_of_cons in Hx as [-> | Hx]; [congruence |].
    destruct (IH Hx He) as [e' ->]. simpl. eauto.
Qed.

Lemma find_first_match hexes h found :
  first_match hexes h found ->
  List.find (fun x => String.eqb (hexHash x) h) hexes = Some found.
Proof.
  intros (before & after & -> & Hh & Hbefore).
  induction Hbefore as [| x before Hx _ IH]; simpl.
  - rewrite Hh, String.eqb_refl. reflexivity.
  - destruct (String.eqb_spec (hexHash x) h); [contradiction | exact IH].
Qed.

Lemma find_no_match hexes h :
  Forall (fun x => hexHash x <> h) hexes ->
  List.find (fun x => String.eqb (hexHash x) h) hexes = None.
Proof.
  induction 1 as [| x hexes Hx _ IH]; simpl; [reflexivity |].
  destruct (String.eqb_spec (hexHash x) h); [contradiction | exact IH].
Qed.

Lemma find_match_or_not hexes h :
  (exists found, first_match hexes h found) \/
  Forall (fun x => hexHash x <> h) hexes.
Proof.
  induction hexes as [| x hexes IH].
  - right. constructor.
  - destruct (String.eqb_spec (hexHash x) h) as [Heq | Hne].
    + left. exists x, [], hexes. repeat split; [exact Heq | constructor].
    + destruct IH as [(found & before & after & -> & Hh & Hb) | Hnone].
      * left. exists found, (x :: before), after.
        repeat split; [exact Hh | constructor; assumption].
      * right. constructor; assumption.
Qed.

Lemma first_or_zero_bytes field :
  first_or_zero (RBuf field) = JNum (hd 0 field).
Proof.
  destruct field as [| b field]; simpl; [reflexivity |].
  destruct (Z.eqb_spec b 0); congruence.
Qed.

Lemma decode_orders_spec_record pics orders others :
  decode_orders (spec_record pics orders others) = Ok (spec_orders orders).
Proof.
  unfold spec_record, spec_orders. simpl. f_equal. f_equal.
  rewrite map_map. apply map_ext. intros order. simpl. f_equal.
  rewrite map_map. apply map_ext. intros field.
  apply first_or_zero_bytes.
Qed.

Section DecodeFlips.

Variable decode : list Z -> result rlp.

Lemma decodeFlip_found hexes h found bytes pics orders others :
  first_match hexes (hash h) found ->
  fromHexString (substring2 (hex found)) = Ok bytes ->
  decode bytes = Ok (spec_record pics orders others) ->
  decodeFlip decode hexes h
  = Ok (mkFlip (hash h) (ready h) (rlp_value pics) (spec_orders orders)).
Proof.
  intros Hfound Hbytes Hdecode. unfold decodeFlip.
  rewrite (find_first_match _ _ _ Hfound), Hbytes.
  cbn [mbind result_bind]. rewrite Hdecode.
  cbn [mbind result_bind]. rewrite decode_orders_spec_record.
  reflexivity.
Qed.

Lemma decodeFlip_missing hexes h :
  Forall (fun x => hexHash x <> hash h) hexes ->
  decodeFlip decode hexes h = Ok (mkFlip (hash h) (ready h) JNull JNull).
Proof.
  intros Hnone. unfold decodeFlip. rewrite (find_no_match _ _ Hnone).
  reflexivity.
Qed.

Lemma decodeFlip_malformed hexes h found bytes e :
  first_match hexes (hash h) found ->
  fromHexString (substring2 (hex found)) = Ok bytes ->
  decode bytes = Throw e ->
  decodeFlip decode hexes h = Throw e.
Proof.
  intros Hfound Hbytes Hdecode. unfold decodeFlip.
  rewrite (find_first_match _ _ _ Hfound), Hbytes. simpl.
  rewrite Hdecode. reflexivity.
Qed.

End DecodeFlips.

Example decodeFlips_example :
  decodeFlips rlp_decode exampleHashes [mkHexItem "a" exampleHex]
  = Ok exampleDecoded.
Proof. vm_compute. reflexivity. Qed.

(** The flip object read property by property: what [mkFlip] builds has
    the five properties below and no other. *)
Lemma mkFlip_properties h r pics orders :
  mkFlip h r pics orders !! "hash" = Some (JStr h) /\
  mkFlip h r pics orders !! "ready" = Some r /\
  mkFlip h r pics orders !! "pics" = Some pics /\
  mkFlip h r pics orders !! "orders" = Some orders /\
  mkFlip h r pics orders !! "answer" = Some JNull /\
  dom (mkFlip h r pics orders)
  = ({["hash"; "ready"; "pics"; "orders"; "answer"]} : gset string).
Proof.
  unfold mkFlip.
  split; [apply lookup_insert_eq |].
  split; [rewrite lookup_insert_ne by discriminate; apply lookup_insert_eq |].
  split; [rewrite !lookup_insert_ne by discriminate;
          apply lookup_insert_eq |].
  split; [rewrite !lookup_insert_ne by discriminate;
          apply lookup_insert_eq |].
  split; [rewrite !lookup_insert_ne by discriminate;
          apply lookup_singleton_eq |].
  rewrite !dom_insert_L, dom_singleton_L. set_solver.
Qed.

(** The flips of the example, written out property by property. *)
Example decodeFlips_example_explicit :
  decodeFlips rlp_decode exampleHashes [mkHexItem "a" exampleHex]
  = Ok [ {[ "hash" := JStr "a"; "ready" := JBool true;
            "pics" := JArr [JBuf [105; 109; 103; 65]];
            "orders" := JArr [JArr [JNum 0; JNum 1]];
            "answer" := JNull ]};
         {[ "hash" := JStr "b"; "ready" := JBool false;
            "pics" := JNull; "orders" := JNull; "answer" := JNull ]} ].
Proof. vm_compute. reflexivity. Qed.

(** C4: when every content that is the first match of a requested hash
    decodes to a record, [decodeFlips] returns one flip per entry of the
    hash list, in its order. The flip at a position has the five
    properties [hash], [ready], [pics], [orders] and [answer] and no
    other; [hash] and [ready] are those of the request at that position
    and [answer] is [null]; with a first match, [pics] is field 0 of the
    record and [orders] the first bytes of field 1; with no match, [pics]
    and [orders] are [null]. *)
Theorem decodeFlips_per_hash decode hashes hexes :
  (forall h found,
     h ∈ hashes -> first_match hexes (hash h) found ->
     exists bytes pics orders others,
       fromHexString (substring2 (hex found)) = Ok bytes /\
       decode bytes = Ok (spec_record pics orders others)) ->
  exists flips,
    decodeFlips decode hashes hexes = Ok flips /\
    length flips = length hashes /\
    forall i h,
      hashes !! i = Some h ->
      exists f : obj,
        flips !! i = Some f /\
        f !! "hash" = Some (JStr (hash h)) /\
        f !! "ready" = Some (ready h) /\
        f !! "answer" = Some JNull /\
        dom f = ({["hash"; "ready"; "pics"; "orders"; "answer"]}
                 : gset string) /\
        (forall found bytes pics orders others,
           first_match hexes (hash h) found ->
           fromHexString (substring2 (hex found)) = Ok bytes ->
           decode bytes = Ok (spec_record pics orders others) ->
           f !! "pics" = Some (rlp_value pics) /\
           f !! "orders" = Some (spec_orders orders)) /\
        (Forall (fun x => hexHash x <> hash h) hexes ->
         f !! "pics" = Some JNull /\ f !! "orders" = Some JNull).
Proof.
  intros Hwf.
  destruct (mapM_result_ok (decodeFlip decode hexes) hashes)
    as (flips & Hflips & Hlen & Hnth).
  { intros h Hh.
    destruct (find_match_or_not hexes (hash h)) as [[found Hfound] | Hnone].
    - destruct (Hwf h found Hh Hfound)
        as (bytes & pics & orders & others & Hbytes & Hdecode).
      eexists. eapply decodeFlip_found; eassumption.
    - eexists. apply decodeFlip_missing. exact Hnone. }
  exists flips. split; [exact Hflips |]. split; [exact Hlen |].
  intros i h Hi. destruct (Hnth i h Hi) as (flip & Hflip & Hlookup).
  exists flip. split; [exact Hlookup |].
  assert (Hshape : exists pics orders,
             flip = mkFlip (hash h) (ready h) pics orders).
  { destruct (find_match_or_not hexes (hash h)) as [[found Hfound] | Hnone].
    - destruct (Hwf h found ltac:(eapply list_elem_of_lookup_2; exact Hi)
                  Hfound)
        as (bytes & pics & orders & others & Hbytes & Hdecode).
      rewrite (decodeFlip_found decode _ _ _ _ _ _ _ Hfound Hbytes Hdecode)
        in Hflip.
      injection Hflip as <-. eauto.
    - rewrite (decodeFlip_missing decode _ _ Hnone) in Hflip.
      injection Hflip as <-. eauto. }
  destruct Hshape as (pics0 & orders0 & Hshape).
  destruct (mkFlip_properties (hash h) (ready h) pics0 orders0)
    as (Hhash & Hready & _ & _ & Hanswer & Hdom).
  rewrite <- Hshape in Hhash, Hready, Hanswer, Hdom.
  split; [exact Hhash |]. split; [exact Hready |].
  split; [exact Hanswer |]. split; [exact Hdom |]. split.
  - intros found bytes pics orders others Hfound Hbytes Hdecode.
    rewrite (decodeFlip_found decode _ _ _ _ _ _ _ Hfound Hbytes Hdecode)
      in Hflip.
    injection Hflip as <-.
    destruct (mkFlip_properties (hash h) (ready h) (rlp_value pics)
                (spec_orders orders)) as (_ & _ & Hpics & Horders & _).
    split; assumption.
  - intros Hnone. rewrite (decodeFlip_missing decode _ _ Hnone) in Hflip.
    injection Hflip as <-.
    destruct (mkFlip_properties (hash h) (ready h) JNull JNull)
      as (_ & _ & Hpics & Horders & _).
    split; assumption.
Qed.

Lemma first_match_single x h found :
  first_match [x] h found -> found = x.
Proof.
  intros (before & after & Heq & _ & _).
  destruct before as [| y before]; simpl in Heq.
  - congruence.
  - destruct before; discriminate Heq.
Qed.

Lemma decodeFlips_per_hash_witness :
  exists flips,
    decodeFlips rlp_decode exampleHashes [mkHexItem "a" exampleHex]
    = Ok flips /\
    length flips = length exampleHashes /\
    forall i h,
      exampleHashes !! i = Some h ->
      exists f : obj,
        flips !! i = Some f /\
        f !! "hash" = Some (JStr (hash h)) /\
        f !! "ready" = Some (ready h) /\
        f !! "answer" = Some JNull /\
        dom f = ({["hash"; "ready"; "pics"; "orders"; "answer"]}
                 : gset string) /\
        (forall found bytes pics orders others,
           first_match [mkHexItem "a" exampleHex] (hash h) found ->
           fromHexString (substring2 (hex found)) = Ok bytes ->
           rlp_decode bytes = Ok (spec_record pics orders others) ->
           f !! "pics" = Some (rlp_value pics) /\
           f !! "orders" = Some (spec_orders orders)) /\
        (Forall (fun x => hexHash x <> hash h) [mkHexItem "a" exampleHex] ->
         f !! "pics" = Some JNull /\ f !! "orders" = Some JNull).
Proof.
  apply (decodeFlips_per_hash rlp_decode exampleHashes
           [mkHexItem "a" exampleHex]).
  intros h found _ Hfound.
  apply first_match_single in Hfound. subst found.
  exists [202; 197; 132; 105; 109; 103; 65; 195; 194; 128; 1],
    (RList [RBuf [105; 109; 103; 65]]), [[[]; [1]]], [].
  split; vm_compute; reflexivity.
Defined.

(** C3, as the code has it: a requested hash whose first match holds a
    record that [decode] rejects makes the whole of [decodeFlips] raise: no
    flip is returned for the batch, neither the affected one nor the
    others, and nothing is substituted. *)
Theorem decodeFlips_malformed_aborts decode hashes hexes h found bytes e :
  h ∈ hashes ->
  first_match hexes (hash h) found ->
  fromHexString (substring2 (hex found)) = Ok bytes ->
  decode bytes = Throw e ->
  (exists e', decodeFlips decode hashes hexes = Throw e') /\
  (forall flips, decodeFlips decode hashes hexes <> Ok flips).
Proof.
  intros Hh Hfound Hbytes Hdecode.
  destruct (mapM_result_throw (decodeFlip decode hexes) hashes h e Hh)
    as [e' He'].
  { eapply decodeFlip_malformed; eassumption. }
  unfold decodeFlips. rewrite He'. split; [eauto | discriminate].
Qed.

Lemma decodeFlips_malformed_aborts_witness :
  (exists e',
     decodeFlips rlp_decode exampleHashes
       [mkHexItem "a" exampleHex; mkHexItem "b" malformedHex] = Throw e') /\
  (forall flips,
     decodeFlips rlp_decode exampleHashes
       [mkHexItem "a" exampleHex; mkHexItem "b" malformedHex] <> Ok flips).
Proof.
  apply (decodeFlips_malformed_aborts rlp_decode exampleHashes
           [mkHexItem "a" exampleHex; mkHexItem "b" malformedHex]
           (mkHashItem "b" (JBool false)) (mkHexItem "b" malformedHex)
           [184; 5; 1] (Error "invalid RLP")).
  - right. left.
  - exists [mkHexItem "a" exampleHex], []. split; [reflexivity |].
    split; [reflexivity |]. constructor; [discriminate | constructor].
  - reflexivity.
  - reflexivity.
Defined.

(** C3 as stated fails: with a well-formed record for the first hash and a
    malformed one for the second, no list of flips is returned, so the
    first flip is not decoded and the second is not left unready. *)
Lemma malformed_record_aborts_batch :
  decodeFlip rlp_decode
    [mkHexItem "a" exampleHex; mkHexItem "b" malformedHex]
    (mkHashItem "a" (JBool true))
  = Ok (mkFlip "a" (JBool true)
          (JArr [JBuf [105; 109; 103; 65]]) (JArr [JArr [JNum 0; JNum 1]])) /\
  decodeFlips rlp_decode exampleHashes
    [mkHexItem "a" exampleHex; mkHexItem "b" malformedHex]
  = Throw (Error "invalid RLP") /\
  ~ (exists flips,
       decodeFlips rlp_decode exampleHashes
         [mkHexItem "a" exampleHex; mkHexItem "b" malformedHex] = Ok flips).
Proof.
  split; [vm_compute; reflexivity |].
  split; [vm_compute; reflexivity |].
  intros [flips Hflips]. vm_compute in Hflips. discriminate Hflips.
Qed.

Lemma fetch_flips_succeeded_frame_witness :
  exists state',
    validationReducer rlp_decode twoFlips
      (FETCH_FLIPS_SUCCEEDED exampleHashes [mkHexItem "a" exampleHex])
    = Ok state' /\
    hashes state' = [] /\
    length (flips state') = 2%nat /\
    validationReducer rlp_decode state'
      (FETCH_MISSING_FLIPS_SUCCEEDED [mkHexItem "a" exampleHex])
    = Ok (set_loading false (set_flips [] state')).
Proof.
  destruct (fetch_flips_succeeded_frame rlp_decode twoFlips exampleHashes
              [mkHexItem "a" exampleHex] exampleDecoded
              ltac:(vm_compute; reflexivity))
    as (state' & Hstep & -> & Hnext).
  eexists. split; [exact Hstep |]. split; [reflexivity |].
  split; [reflexivity |]. rewrite Hnext. reflexivity.
Defined.

(** ** [canSubmit] along a session *)





Section Session.

Variable decode : list Z -> result rlp.


Lemma answer_step_in_range state option f :
  0 <= currentIndex state ->
  flips state !! Z.to_nat (currentIndex state) = Some f ->
  validationReducer decode state (ANSWER option)
  = let flips' :=
      <[Z.to_nat (currentIndex state) := <["answer" := option]> f]>
        (flips state) in
    Ok (set_canSubmit (forallb hasAnswer (answers_of flips'))
          (set_flips flips' state)).
Proof.
  intros Hpos Hf. simpl.
  rewrite (answered_in_range state option f Hpos Hf). reflexivity.
Qed.



Lemma clearing_event_step state action :
  clearing_event action ->
  exists state',
    validationReducer decode state action = Ok state' /\
    flips state' = [] /\ canSubmit state' = false.
Proof.
  destruct action; simpl; try contradiction; intros _;
    eexists; repeat split.
Qed.

End Session.

(** The flips that [decodeFlips] returns start a session unanswered:
    their [answer] is [null]. *)
Lemma decodeFlip_unanswered decode hexes h flip :
  decodeFlip decode hexes h = Ok flip ->
  hasAnswer (prop flip "answer") = false.
Proof.
  unfold decodeFlip.
  destruct (List.find _ hexes) as [found |].
  - destruct (fromHexString _) as [bytes |]; [| discriminate].
    cbn [mbind result_bind].
    destruct (decode bytes) as [decodedFlip |]; [| discriminate].
    cbn [mbind result_bind].
    destruct (decode_orders decodedFlip) as [orders |]; [| discriminate].
    intros [= <-]. reflexivity.
  - intros [= <-]. reflexivity.
Qed.

Lemma decodeFlips_unanswered decode hashes hexes decoded :
  decodeFlips decode hashes hexes = Ok decoded ->
  Forall (fun f => hasAnswer (prop f "answer") = false) decoded.
Proof.
  unfold decodeFlips. revert decoded.
  induction hashes as [| h hashes IH]; intros decoded; simpl.
  - intros [= <-]. constructor.
  - destruct (decodeFlip decode hexes h) as [flip |] eqn:Hflip;
      [| discriminate].
    cbn [mbind result_bind].
    destruct (mapM (decodeFlip decode hexes) hashes) as [rest |];
      [| discriminate].
    intros [= <-]. constructor.
    + eapply decodeFlip_unanswered. exact Hflip.
    + apply IH. reflexivity.
Qed.




(** * Further properties *)

(** ** [fromHexString] *)

Lemma match_pairs_two c d s :
  match_pairs (String c (String d s))
  = if is_line_terminator c then match_pairs (String d s)
    else if is_line_terminator d
         then String c EmptyString :: match_pairs s
         else String c (String d EmptyString) :: match_pairs s.
Proof. reflexivity. Qed.

(** [match] finds nothing exactly in a string of line terminators. *)
Lemma match_pairs_nil_iff s :
  match_pairs s = [] <->
  Forall (fun c => is_line_terminator c = true) (chars s).
Proof.
  enough (H : (match_pairs s = [] <->
               Forall (fun c => is_line_terminator c = true) (chars s)) /\
              forall c,
                match_pairs (String c s) = [] <->
                Forall (fun c => is_line_terminator c = true)
                  (chars (String c s))) by apply H.
  induction s as [| d s [IHs IHc]].
  - split; [simpl; split; [constructor | reflexivity] |].
    intros c. simpl. destruct (is_line_terminator c) eqn:Hc.
    + split; [repeat constructor; exact Hc | reflexivity].
    + split; [discriminate |]. intros H. inversion H; congruence.
  - split; [apply IHc |].
    intros c. rewrite match_pairs_two.
    change (chars (String c (String d s))) with (c :: chars (String d s)).
    destruct (is_line_terminator c) eqn:Hc.
    + rewrite IHc. split.
      * intros H. constructor; assumption.
      * intros H. inversion H; assumption.
    + split.
      * destruct (is_line_terminator d); discriminate.
      * intros H. inversion H; congruence.
Qed.

Lemma line_terminators_or_not (l : list ascii) :
  Forall (fun c => is_line_terminator c = true) l \/
  Exists (fun c => is_line_terminator c = false) l.
Proof.
  induction l as [| c l [IH | IH]].
  - left. constructor.
  - destruct (is_line_terminator c) eqn:Hc.
    + left. constructor; assumption.
    + right. left. exact Hc.
  - right. right. exact IH.
Qed.

Lemma toUint8_range n : 0 <= toUint8 n < 256.
Proof.
  destruct n as [z |]; simpl; [apply Z.mod_pos_bound |]; lia.
Qed.

(** X1: [fromHexString] raises a [TypeError] exactly on a string without a
    character other than line terminators, the empty string among them;
    otherwise it returns a list of bytes that is not empty and whose
    elements are all in [0 .. 255], whatever the characters. *)
Theorem fromHexString_total hexString :
  match fromHexString hexString with
  | Ok bytes =>
      bytes <> [] /\
      Forall (fun b => 0 <= b < 256) bytes /\
      Exists (fun c => is_line_terminator c = false) (chars hexString)
  | Throw e =>
      e = TypeError /\
      Forall (fun c => is_line_terminator c = true) (chars hexString)
  end.
Proof.
  unfold fromHexString.
  destruct (match_pairs hexString) as [| pair pairs] eqn:Hpairs.
  - split; [reflexivity |]. apply match_pairs_nil_iff. exact Hpairs.
  - split; [discriminate |]. split.
    + apply Forall_forall. intros b Hb.
      apply list_elem_of_In, in_map_iff in Hb as (byte & <- & _).
      apply toUint8_range.
    + destruct (line_terminators_or_not (chars hexString)) as [Hall | Hex];
        [| exact Hex].
      apply match_pairs_nil_iff in Hall. congruence.
Qed.

Lemma hex_of_byte_reads_all :
  forallb hex_of_byte_reads (map Z.of_nat (seq 0 256)) = true.
Proof. vm_compute. reflexivity. Qed.

Lemma hex_of_byte_read b :
  0 <= b < 256 ->
  (forall rest,
     match_pairs (hex_of_byte b +:+ rest) = hex_of_byte b :: match_pairs rest) /\
  toUint8 (parseInt16 (hex_of_byte b)) = b.
Proof.
  intros Hb.
  assert (Hin : In b (map Z.of_nat (seq 0 256))).
  { apply in_map_iff. exists (Z.to_nat b). split; [lia |].
    apply in_seq. lia. }
  pose proof (proj1 (forallb_forall _ _) hex_of_byte_reads_all b Hin) as Hr.
  unfold hex_of_byte_reads in Hr.
  change (hex_of_byte b)
    with (String (hex_char (b / 16))
            (String (hex_char (b mod 16)) EmptyString)) in Hr at 1.
  cbv iota in Hr.
  apply andb_true_iff in Hr as [Hr Hv].
  apply andb_true_iff in Hr as [Hc Hd].
  apply negb_true_iff in Hc, Hd. split.
  - intros rest.
    change (hex_of_byte b +:+ rest)
      with (String (hex_char (b / 16)) (String (hex_char (b mod 16)) rest)).
    rewrite match_pairs_two, Hc, Hd. reflexivity.
  - apply Z.eqb_eq. exact Hv.
Qed.

Lemma match_pairs_hex_of_bytes bytes :
  Forall (fun b => 0 <= b < 256) bytes ->
  match_pairs (hex_of_bytes bytes) = map hex_of_byte bytes.
Proof.
  induction 1 as [| b bytes Hb _ IH]; [reflexivity |].
  cbn [hex_of_bytes map].
  rewrite (proj1 (hex_of_byte_read b Hb)), IH. reflexivity.
Qed.

Lemma read_hex_of_bytes bytes :
  Forall (fun b => 0 <= b < 256) bytes ->
  map (fun byte => toUint8 (parseInt16 byte)) (map hex_of_byte bytes) = bytes.
Proof.
  induction 1 as [| b bytes Hb _ IH]; [reflexivity |].
  cbn [map]. rewrite IH, (proj2 (hex_of_byte_read b Hb)). reflexivity.
Qed.

(** X2: for a list of bytes that is not empty, [fromHexString] reads the
    bytes back from their two-digit hexadecimal rendering, also after
    [substring(2)] has dropped a two-character prefix such as [0x]. *)
Theorem fromHexString_hex_of_bytes bytes :
  bytes <> [] ->
  Forall (fun b => 0 <= b < 256) bytes ->
  fromHexString (hex_of_bytes bytes) = Ok bytes /\
  fromHexString (substring2 ("0x" +:+ hex_of_bytes bytes)) = Ok bytes.
Proof.
  intros Hne Hrange.
  assert (H : fromHexString (hex_of_bytes bytes) = Ok bytes).
  { unfold fromHexString. rewrite (match_pairs_hex_of_bytes _ Hrange).
    rewrite <- (read_hex_of_bytes _ Hrange) at 2.
    destruct bytes as [| b bytes]; [contradiction | reflexivity]. }
  split; [exact H | exact H].
Qed.

Lemma fromHexString_hex_of_bytes_witness :
  fromHexString (hex_of_bytes [202; 0; 255]) = Ok [202; 0; 255] /\
  fromHexString (substring2 ("0x" +:+ hex_of_bytes [202; 0; 255]))
  = Ok [202; 0; 255].
Proof.
  apply (fromHexString_hex_of_bytes [202; 0; 255]).
  - discriminate.
  - repeat constructor; lia.
Defined.

(** ** [decodeFlips] and the contents it is given *)

Lemma mapM_result_ext {A B} (f g : A -> result B) (l : list A) :
  (forall x, x ∈ l -> f x = g x) -> mapM f l = mapM g l.
Proof.
  induction l as [| a l IH]; intros Hfg; [reflexivity |].
  simpl. rewrite (Hfg a) by left. rewrite IH; [reflexivity |].
  intros x Hx. apply Hfg. right. exact Hx.
Qed.

(** What [mapM] returned has the callback's result at each position. *)
Lemma mapM_result_inv {A B} (f : A -> result B) (l : list A) ys :
  mapM f l = Ok ys ->
  length ys = length l /\
  forall i x, l !! i = Some x -> exists y, ys !! i = Some y /\ f x = Ok y.
Proof.
  revert ys. induction l as [| a l IH]; intros ys; simpl.
  - intros [= <-]. split; [reflexivity |]. intros i x Hi. discriminate Hi.
  - destruct (f a) as [b |] eqn:Hb; [| discriminate].
    cbn [mbind result_bind].
    destruct (mapM f l) as [bs |]; [| discriminate].
    intros [= <-]. destruct (IH bs eq_refl) as [Hlen Hnth]. split.
    + simpl. congruence.
    + intros [| i] x Hi; simpl in Hi.
      * injection Hi as <-. eauto.
      * apply Hnth. exact Hi.
Qed.

Lemma find_app_first {A} (f : A -> bool) (l1 l2 : list A) :
  List.find f (l1 ++ l2)
  = match List.find f l1 with
    | Some x => Some x
    | None => List.find f l2
    end.
Proof.
  induction l1 as [| a l1 IH]; simpl; [reflexivity |].
  destruct (f a); [reflexivity | exact IH].
Qed.

(** [decodeFlips] reads the contents only through the first entry for each
    requested hash. *)
Lemma decodeFlips_same_matches decode hashes hexes hexes' :
  (forall h, h ∈ hashes ->
     List.find (fun x => String.eqb (hexHash x) (hash h)) hexes
     = List.find (fun x => String.eqb (hexHash x) (hash h)) hexes') ->
  decodeFlips decode hashes hexes = decodeFlips decode hashes hexes'.
Proof.
  intros Hsame. unfold decodeFlips. apply mapM_result_ext.
  intros h Hh. unfold decodeFlip. rewrite (Hsame h Hh). reflexivity.
Qed.

(** X3: when no content has a requested hash, and in particular when
    there is no content at all, [decodeFlips] does not call the decoder
    and does not raise: it returns one flip per request, in order, and the
    flip at a position has the [hash] and [ready] of the request at that
    position, [null] for [pics], [orders] and [answer], and no other
    property, whatever the other contents hold. *)
Theorem decodeFlips_nothing_fetched decode hashes hexes :
  Forall (fun h => Forall (fun x => hexHash x <> hash h) hexes) hashes ->
  exists flips,
    decodeFlips decode hashes hexes = Ok flips /\
    length flips = length hashes /\
    forall i h,
      hashes !! i = Some h ->
      exists f : obj,
        flips !! i = Some f /\
        f !! "hash" = Some (JStr (hash h)) /\
        f !! "ready" = Some (ready h) /\
        f !! "pics" = Some JNull /\
        f !! "orders" = Some JNull /\
        f !! "answer" = Some JNull /\
        dom f = ({["hash"; "ready"; "pics"; "orders"; "answer"]}
                 : gset string).
Proof.
  intros Hnone.
  assert (Hall : decodeFlips decode hashes hexes
                 = Ok (map pendingFlip hashes)).
  { unfold decodeFlips.
    induction Hnone as [| h hashes Hh _ IH]; [reflexivity |].
    simpl. rewrite (decodeFlip_missing decode _ _ Hh).
    cbn [mbind result_bind]. rewrite IH. reflexivity. }
  exists (map pendingFlip hashes). split; [exact Hall |].
  split; [apply length_map |].
  intros i h Hi. exists (pendingFlip h). split.
  - rewrite list_lookup_fmap, Hi. reflexivity.
  - unfold pendingFlip.
    destruct (mkFlip_properties (hash h) (ready h) JNull JNull)
      as (H1 & H2 & H3 & H4 & H5 & H6).
    repeat (split; [assumption |]). assumption.
Qed.

Lemma decodeFlips_nothing_fetched_witness :
  exists flips,
    decodeFlips rlp_decode exampleHashes [mkHexItem "c" malformedHex]
    = Ok flips /\
    length flips = length exampleHashes /\
    forall i h,
      exampleHashes !! i = Some h ->
      exists f : obj,
        flips !! i = Some f /\
        f !! "hash" = Some (JStr (hash h)) /\
        f !! "ready" = Some (ready h) /\
        f !! "pics" = Some JNull /\
        f !! "orders" = Some JNull /\
        f !! "answer" = Some JNull /\
        dom f = ({["hash"; "ready"; "pics"; "orders"; "answer"]}
                 : gset string).
Proof.
  apply (decodeFlips_nothing_fetched rlp_decode exampleHashes
           [mkHexItem "c" malformedHex]).
  repeat constructor; discriminate.
Defined.

(** X4: a content whose hash was not requested is ignored, wherever it
    stands in the list and even when its record is malformed: with or
    without it [decodeFlips] gives the same result. *)
Theorem decodeFlips_ignores_unrequested decode hashes before x after :
  Forall (fun h => hash h <> hexHash x) hashes ->
  decodeFlips decode hashes (before ++ x :: after)
  = decodeFlips decode hashes (before ++ after).
Proof.
  intros Hx. apply decodeFlips_same_matches. intros h Hh.
  rewrite Forall_forall in Hx. specialize (Hx h Hh).
  rewrite !find_app_first. simpl.
  destruct (String.eqb_spec (hexHash x) (hash h)); [congruence | reflexivity].
Qed.

Lemma decodeFlips_ignores_unrequested_witness :
  decodeFlips rlp_decode exampleHashes
    ([mkHexItem "a" exampleHex] ++ mkHexItem "c" malformedHex :: [])
  = decodeFlips rlp_decode exampleHashes ([mkHexItem "a" exampleHex] ++ []).
Proof.
  apply (decodeFlips_ignores_unrequested rlp_decode exampleHashes
           [mkHexItem "a" exampleHex] (mkHexItem "c" malformedHex) []).
  repeat constructor; discriminate.
Defined.

(** X5: the first content for a hash wins: a later content with the same
    hash is ignored, even when its record is malformed or differs. *)
Theorem decodeFlips_first_content_wins decode hashes before x between y after :
  hexHash y = hexHash x ->
  decodeFlips decode hashes (before ++ x :: between ++ y :: after)
  = decodeFlips decode hashes (before ++ x :: between ++ after).
Proof.
  intros Hxy. apply decodeFlips_same_matches. intros h _.
  rewrite !find_app_first. simpl.
  destruct (List.find _ before); [reflexivity |].
  destruct (String.eqb_spec (hexHash x) (hash h)) as [Hx | Hx];
    [reflexivity |].
  rewrite !find_app_first. simpl.
  destruct (List.find _ between); [reflexivity |].
  destruct (String.eqb_spec (hexHash y) (hash h)); [congruence | reflexivity].
Qed.

Lemma decodeFlips_first_content_wins_witness :
  decodeFlips rlp_decode exampleHashes
    ([] ++ mkHexItem "a" exampleHex :: [] ++ mkHexItem "a" malformedHex :: [])
  = decodeFlips rlp_decode exampleHashes
      ([] ++ mkHexItem "a" exampleHex :: [] ++ []).
Proof.
  apply (decodeFlips_first_content_wins rlp_decode exampleHashes []
           (mkHexItem "a" exampleHex) [] (mkHexItem "a" malformedHex) []).
  reflexivity.
Defined.

Lemma is_object_rlp_value r : is_object (rlp_value r).
Proof. destruct r; exact I. Qed.

Lemma decode_orders_objects decodedFlip orders :
  decode_orders decodedFlip = Ok orders ->
  is_object (field0 decodedFlip) /\ is_object orders.
Proof.
  destruct decodedFlip as [bytes | [| p [| [[| b bytes] | os] others]]];
    simpl; try discriminate; intros [= <-];
    (split; [apply is_object_rlp_value | exact I]).
Qed.

Lemma decodeFlip_shape decode hexes h flip :
  decodeFlip decode hexes h = Ok flip ->
  exists pics orders,
    flip = mkFlip (hash h) (ready h) pics orders /\
    (pics = JNull /\ orders = JNull \/ is_object pics /\ is_object orders).
Proof.
  unfold decodeFlip.
  destruct (List.find _ hexes) as [found |].
  - destruct (fromHexString _) as [bytes |]; [| discriminate].
    cbn [mbind result_bind].
    destruct (decode bytes) as [decodedFlip |]; [| discriminate].
    cbn [mbind result_bind].
    destruct (decode_orders decodedFlip) as [orders |] eqn:Ho;
      [| discriminate].
    intros [= <-]. eexists _, _. split; [reflexivity |].
    right. apply decode_orders_objects. exact Ho.
  - intros [= <-]. eexists _, _. split; [reflexivity |]. left. split;
      reflexivity.
Qed.

(** X6: whenever [decodeFlips] returns, whatever the decoder and the
    contents, there is one flip per request and the flip at each position
    has the five properties [hash], [ready], [pics], [orders] and [answer]
    and no other, with the [hash] and [ready] of the request at that
    position, a [null] answer, and decoded fields that go together: [pics]
    and [orders] are both [null], or both are arrays or buffers. *)
Theorem decodeFlips_shape decode hashes hexes decoded :
  decodeFlips decode hashes hexes = Ok decoded ->
  length decoded = length hashes /\
  forall i h,
    hashes !! i = Some h ->
    exists (f : obj) pics orders,
      decoded !! i = Some f /\
      f !! "hash" = Some (JStr (hash h)) /\
      f !! "ready" = Some (ready h) /\
      f !! "pics" = Some pics /\
      f !! "orders" = Some orders /\
      f !! "answer" = Some JNull /\
      dom f = ({["hash"; "ready"; "pics"; "orders"; "answer"]}
               : gset string) /\
      (pics = JNull /\ orders = JNull \/ is_object pics /\ is_object orders).
Proof.
  intros Hd. destruct (mapM_result_inv _ _ _ Hd) as [Hlen Hnth].
  split; [exact Hlen |]. intros i h Hi.
  destruct (Hnth i h Hi) as (flip & Hflip & Hdec).
  destruct (decodeFlip_shape _ _ _ _ Hdec) as (pics & orders & -> & Hboth).
  destruct (mkFlip_properties (hash h) (ready h) pics orders)
    as (H1 & H2 & H3 & H4 & H5 & H6).
  exists (mkFlip (hash h) (ready h) pics orders), pics, orders.
  repeat (split; [assumption |]). assumption.
Qed.

Lemma decodeFlips_shape_witness :
  length exampleDecoded = length exampleHashes /\
  forall i h,
    exampleHashes !! i = Some h ->
    exists (f : obj) pics orders,
      exampleDecoded !! i = Some f /\
      f !! "hash" = Some (JStr (hash h)) /\
      f !! "ready" = Some (ready h) /\
      f !! "pics" = Some pics /\
      f !! "orders" = Some orders /\
      f !! "answer" = Some JNull /\
      dom f = ({["hash"; "ready"; "pics"; "orders"; "answer"]}
               : gset string) /\
      (pics = JNull /\ orders = JNull \/ is_object pics /\ is_object orders).
Proof.
  apply (decodeFlips_shape rlp_decode exampleHashes
           [mkHexItem "a" exampleHex] exampleDecoded).
  vm_compute. reflexivity.
Defined.

(** ** Fetching during a session *)

(** X7: a fetch-success step that returns replaces the flips by flips
    without an answer, and recomputes neither [canSubmit] nor the cursor:
    the answers given before it are gone, and a [canSubmit] that was true
    stays true over flips none of which is answered. *)
Theorem fetch_success_keeps_canSubmit decode state action state' :
  fetch_success action ->
  validationReducer decode state action = Ok state' ->
  Forall (fun f => hasAnswer (prop f "answer") = false) (flips state') /\
  canSubmit state' = canSubmit state /\
  currentIndex state' = currentIndex state /\
  loading state' = false.
Proof.
  intros Hfetch Hstep.
  destruct action as [| | | | | hs hexes | | hexes | | | | | |];
    simpl in Hfetch; try contradiction; simpl in Hstep.
  - destruct (decodeFlips decode hs hexes) as [decoded |] eqn:Hd;
      [| discriminate].
    injection Hstep as <-. simpl. repeat split.
    eapply decodeFlips_unanswered. exact Hd.
  - destruct (decodeFlips decode (hashes state) hexes) as [decoded |] eqn:Hd;
      [| discriminate].
    injection Hstep as <-. simpl. repeat split.
    eapply decodeFlips_unanswered. exact Hd.
Qed.

Lemma fetch_success_keeps_canSubmit_witness :
  Forall (fun f => hasAnswer (prop f "answer") = false)
    (flips (set_loading false
              (set_flips exampleDecoded (set_canSubmit true twoFlips)))) /\
  canSubmit (set_loading false
               (set_flips exampleDecoded (set_canSubmit true twoFlips)))
  = canSubmit (set_canSubmit true twoFlips) /\
  currentIndex (set_loading false
                  (set_flips exampleDecoded (set_canSubmit true twoFlips)))
  = currentIndex (set_canSubmit true twoFlips) /\
  loading (set_loading false
             (set_flips exampleDecoded (set_canSubmit true twoFlips)))
  = false.
Proof.
  apply (fetch_success_keeps_canSubmit rlp_decode
           (set_canSubmit true twoFlips)
           (FETCH_FLIPS_SUCCEEDED exampleHashes [mkHexItem "a" exampleHex])).
  - exact I.
  - vm_compute. reflexivity.
Defined.

(** ** Answering with the cursor on a flip *)

Section Answering.

Variable decode : list Z -> result rlp.

(** X8: with the cursor on a flip, [ANSWER] changes that flip and no
    other, and of that flip the [answer] property and no other; the
    number of flips, the cursor, the hashes and the submitted part of the
    state are as before. *)
Theorem answer_changes_one_flip state option :
  0 <= currentIndex state < Z.of_nat (length (flips state)) ->
  exists state' f,
    validationReducer decode state (ANSWER option) = Ok state' /\
    flips state !! Z.to_nat (currentIndex state) = Some f /\
    flips state' !! Z.to_nat (currentIndex state)
    = Some (<["answer" := option]> f) /\
    (forall j, j <> Z.to_nat (currentIndex state) ->
               flips state' !! j = flips state !! j) /\
    length (flips state') = length (flips state) /\
    set_canSubmit (canSubmit state) (set_flips (flips state) state') = state.
Proof.
  intros Hci.
  destruct (lookup_lt_is_Some_2 (flips state)
              (Z.to_nat (currentIndex state))) as [f Hf]; [lia |].
  pose proof (answer_step_in_range decode state option f
                ltac:(lia) Hf) as Hstep.
  cbv zeta in Hstep. eexists _, f. split; [exact Hstep |].
  split; [exact Hf |]. simpl. split; [| split; [| split]].
  - apply list_lookup_insert_eq. lia.
  - intros j Hj. apply list_lookup_insert_ne. congruence.
  - apply length_insert.
  - destruct state; reflexivity.
Qed.

(** X9: with the cursor on a flip, a second [ANSWER] overwrites the
    first: the two steps give the state of the second one alone. *)
Theorem answer_twice_keeps_last state first second :
  0 <= currentIndex state < Z.of_nat (length (flips state)) ->
  (state' ← validationReducer decode state (ANSWER first);
   validationReducer decode state' (ANSWER second))
  = validationReducer decode state (ANSWER second).
Proof.
  intros Hci.
  destruct (lookup_lt_is_Some_2 (flips state)
              (Z.to_nat (currentIndex state))) as [f Hf]; [lia |].
  rewrite (answer_step_in_range decode state first f ltac:(lia) Hf).
  rewrite (answer_step_in_range decode state second f ltac:(lia) Hf).
  cbv zeta. cbn [mbind result_bind].
  erewrite answer_step_in_range.
  - cbv zeta. simpl.
    rewrite list_insert_insert_eq, insert_insert_eq. reflexivity.
  - simpl. lia.
  - simpl. apply list_lookup_insert_eq. lia.
Qed.

(** X10: with the cursor on a flip, [REPORT_ABUSE] is [ANSWER] with
    [Inappropriate] followed by [NEXT]: the answer of the flip, if any, is
    overwritten and the cursor moves on, staying on the last flip. *)
Theorem report_abuse_is_answer_then_next state :
  0 <= currentIndex state < Z.of_nat (length (flips state)) ->
  validationReducer decode state REPORT_ABUSE
  = (state' ← validationReducer decode state
                (ANSWER (JNum AnswerType.Inappropriate));
     validationReducer decode state' NEXT).
Proof.
  intros Hci.
  destruct (lookup_lt_is_Some_2 (flips state)
              (Z.to_nat (currentIndex state))) as [f Hf]; [lia |].
  rewrite (answer_step_in_range decode state _ f ltac:(lia) Hf).
  cbv zeta. cbn [mbind result_bind]. simpl.
  rewrite (answered_in_range state _ f ltac:(lia) Hf).
  rewrite length_insert. reflexivity.
Qed.

(** X11: [NEXT] and [PREV] undo each other inside the flips, and each is
    a no-op at its end: [NEXT] on the last flip and [PREV] on the first
    leave the state as it is. *)
Theorem next_prev_inverse state :
  0 <= currentIndex state < Z.of_nat (length (flips state)) ->
  (currentIndex state + 1 < Z.of_nat (length (flips state)) ->
   (state' ← validationReducer decode state NEXT;
    validationReducer decode state' PREV) = Ok state) /\
  (0 < currentIndex state ->
   (state' ← validationReducer decode state PREV;
    validationReducer decode state' NEXT) = Ok state) /\
  (currentIndex state + 1 = Z.of_nat (length (flips state)) ->
   validationReducer decode state NEXT = Ok state) /\
  (currentIndex state = 0 ->
   validationReducer decode state PREV = Ok state).
Proof.
  intros Hci. destruct state as [sa la ep ss ls hs fl ld ci cs er].
  cbn [currentIndex flips] in *.
  repeat split; intros H;
    cbn [validationReducer mbind result_bind]; unfold set_currentIndex;
    cbn [currentIndex flips shortAnswers longAnswers epoch
         shortAnswersSubmitted longAnswersSubmitted hashes loading
         canSubmit error];
    do 2 f_equal; lia.
Qed.

(** X12: with the cursor at -1, where [NEXT] leaves it on an empty list,
    and flips fetched since, [ANSWER] answers no flip: it returns the
    flips but the last, then an object that has the answer and nothing
    else, then all the flips again. *)
Theorem answer_at_minus_one state option :
  currentIndex state = -1 ->
  flips state <> [] ->
  exists state',
    validationReducer decode state (ANSWER option) = Ok state' /\
    flips state'
    = take (length (flips state) - 1) (flips state)
      ++ [{["answer" := option]}] ++ flips state /\
    length (flips state') = (2 * length (flips state))%nat.
Proof.
  intros Hci Hne. eexists. split; [reflexivity |].
  assert (Hlen : (0 < length (flips state))%nat).
  { destruct (flips state); [contradiction | simpl; lia]. }
  assert (Hfl : answered state option
                = take (length (flips state) - 1) (flips state)
                  ++ [{["answer" := option]}] ++ flips state).
  { unfold answered. rewrite Hci.
    change (-1 + 1) with 0.
    rewrite js_slice_from_suffix by lia. rewrite drop_0.
    unfold js_index. change (0 <=? -1) with false. cbv iota.
    simpl default. rewrite insert_empty.
    unfold js_slice, relative_index.
    change (0 <? 0) with false. change (-1 <? 0) with true. cbv iota.
    rewrite (Z.min_l 0) by lia. rewrite drop_0.
    rewrite Z.max_l by lia.
    replace (Z.to_nat (Z.of_nat (length (flips state)) + -1 - 0))
      with (length (flips state) - 1)%nat by lia.
    reflexivity. }
  simpl. rewrite Hfl. split; [reflexivity |].
  rewrite !length_app, length_take. simpl. lia.
Qed.

End Answering.

Example cursorBeforeFlips_reached :
  dispatchAll rlp_decode initialState
    [NEXT; FETCH_FLIPS_SUCCEEDED exampleHashes [mkHexItem "a" exampleHex]]
  = Ok cursorBeforeFlips.
Proof. vm_compute. reflexivity. Qed.

Lemma answer_changes_one_flip_witness :
  exists state' f,
    validationReducer rlp_decode twoFlips (ANSWER (JNum AnswerType.Right))
    = Ok state' /\
    flips twoFlips !! Z.to_nat (currentIndex twoFlips) = Some f /\
    flips state' !! Z.to_nat (currentIndex twoFlips)
    = Some (<["answer" := JNum AnswerType.Right]> f) /\
    (forall j, j <> Z.to_nat (currentIndex twoFlips) ->
               flips state' !! j = flips twoFlips !! j) /\
    length (flips state') = length (flips twoFlips) /\
    set_canSubmit (canSubmit twoFlips) (set_flips (flips twoFlips) state')
    = twoFlips.
Proof.
  apply (answer_changes_one_flip rlp_decode twoFlips
           (JNum AnswerType.Right)).
  simpl. lia.
Defined.

Lemma answer_twice_keeps_last_witness :
  (state' ← validationReducer rlp_decode twoFlips (ANSWER (JNum 1));
   validationReducer rlp_decode state' (ANSWER (JNum 2)))
  = validationReducer rlp_decode twoFlips (ANSWER (JNum 2)).
Proof.
  apply (answer_twice_keeps_last rlp_decode twoFlips (JNum 1) (JNum 2)).
  simpl. lia.
Defined.

Lemma report_abuse_is_answer_then_next_witness :
  validationReducer rlp_decode fetchedExample REPORT_ABUSE
  = (state' ← validationReducer rlp_decode fetchedExample
                (ANSWER (JNum AnswerType.Inappropriate));
     validationReducer rlp_decode state' NEXT).
Proof.
  apply (report_abuse_is_answer_then_next rlp_decode fetchedExample).
  simpl. lia.
Defined.

Lemma next_prev_inverse_witness :
  (state' ← validationReducer rlp_decode fetchedExample NEXT;
   validationReducer rlp_decode state' PREV) = Ok fetchedExample /\
  validationReducer rlp_decode fetchedExample PREV = Ok fetchedExample /\
  (state' ← validationReducer rlp_decode twoFlips PREV;
   validationReducer rlp_decode state' NEXT) = Ok twoFlips /\
  validationReducer rlp_decode twoFlips NEXT = Ok twoFlips.
Proof.
  destruct (next_prev_inverse rlp_decode fetchedExample)
    as (Hnp & _ & _ & Hp); [simpl; lia |].
  destruct (next_prev_inverse rlp_decode twoFlips)
    as (_ & Hpn & Hn & _); [simpl; lia |].
  split; [apply Hnp; simpl; lia |].
  split; [apply Hp; reflexivity |].
  split; [apply Hpn; simpl; lia | apply Hn; reflexivity].
Defined.

Lemma answer_at_minus_one_witness :
  exists state',
    validationReducer rlp_decode cursorBeforeFlips (ANSWER (JNum 1))
    = Ok state' /\
    flips state'
    = take (length (flips cursorBeforeFlips) - 1) (flips cursorBeforeFlips)
      ++ [{["answer" := JNum 1]}] ++ flips cursorBeforeFlips /\
    length (flips state') = (2 * length (flips cursorBeforeFlips))%nat.
Proof.
  apply (answer_at_minus_one rlp_decode cursorBeforeFlips (JNum 1)).
  - reflexivity.
  - discriminate.
Defined.

(** ** What a ceremony leaves alone *)

Section Frames.

Variable decode : list Z -> result rlp.

Lemma ceremony_action_step state action state' :
  ceremony_action action ->
  validationReducer decode state action = Ok state' ->
  shortAnswers state' = shortAnswers state /\
  longAnswers state' = longAnswers state /\
  epoch state' = epoch state /\
  shortAnswersSubmitted state' = shortAnswersSubmitted state /\
  longAnswersSubmitted state' = longAnswersSubmitted state.
Proof.
  intros Hact Hstep.
  destruct action as [| | | | | hs hexes | | hexes | | | | | |];
    simpl in Hact; try contradiction; simpl in Hstep;
    try (injection Hstep as <-; repeat split; reflexivity);
    try discriminate Hstep.
  - destruct (decodeFlips decode hs hexes); [| discriminate].
    injection Hstep as <-. repeat split; reflexivity.
  - destruct (decodeFlips decode (hashes state) hexes); [| discriminate].
    injection Hstep as <-. repeat split; reflexivity.
Qed.

(** X13: fetching, moving the cursor, answering and reporting never touch
    what was submitted: along any run of such actions the two answer
    lists, the two submitted flags and the epoch stay as they were. *)
Theorem ceremony_keeps_submissions actions :
  forall state state',
    Forall ceremony_action actions ->
    dispatchAll decode state actions = Ok state' ->
    shortAnswers state' = shortAnswers state /\
    longAnswers state' = longAnswers state /\
    epoch state' = epoch state /\
    shortAnswersSubmitted state' = shortAnswersSubmitted state /\
    longAnswersSubmitted state' = longAnswersSubmitted state.
Proof.
  induction actions as [| action rest IH]; intros state state' Hacts Hrun.
  - injection Hrun as <-. repeat split; reflexivity.
  - inversion Hacts as [| ? ? Hact Hrest]; subst. simpl in Hrun.
    destruct (validationReducer decode state action) as [state1 |] eqn:Hstep;
      [| discriminate].
    cbn [mbind result_bind] in Hrun.
    destruct (ceremony_action_step _ _ _ Hact Hstep)
      as (H1 & H2 & H3 & H4 & H5).
    destruct (IH _ _ Hrest Hrun) as (K1 & K2 & K3 & K4 & K5).
    repeat split; congruence.
Qed.

Lemma error_step state action state' :
  validationReducer decode state action = Ok state' ->
  is_Some (error state) -> is_Some (error state').
Proof.
  intros Hstep [e He].
  destruct action as [v | | | | | hs hexes | | hexes | | | | | |];
    simpl in Hstep; try discriminate Hstep;
    try (injection Hstep as <-; simpl; rewrite ?He; eauto; fail).
  - injection Hstep as <-. simpl.
    destruct (saved_error v); rewrite ?He; eauto.
  - destruct (decodeFlips decode hs hexes); [| discriminate].
    injection Hstep as <-. simpl. rewrite He. eauto.
  - destruct (decodeFlips decode (hashes state) hexes); [| discriminate].
    injection Hstep as <-. simpl. rewrite He. eauto.
Qed.

(** X14: no action removes [error]: once a fetch failure has recorded
    one, the state has an error after every run that returns, a later
    successful fetch, a submission or an epoch reset included. *)
Theorem error_is_never_cleared actions :
  forall state state',
    is_Some (error state) ->
    dispatchAll decode state actions = Ok state' ->
    is_Some (error state').
Proof.
  induction actions as [| action rest IH]; intros s s' Hs Hrun.
  - injection Hrun as <-. exact Hs.
  - simpl in Hrun.
    destruct (validationReducer decode s action) as [s1 |] eqn:Hstep;
      [| discriminate].
    cbn [mbind result_bind] in Hrun.
    apply (IH s1); [| exact Hrun].
    eapply error_step; eassumption.
Qed.

End Frames.

Lemma ceremony_keeps_submissions_witness :
  exists state',
    dispatchAll rlp_decode submittedShort ceremonyRun = Ok state' /\
    (shortAnswers state' = shortAnswers submittedShort /\
     longAnswers state' = longAnswers submittedShort /\
     epoch state' = epoch submittedShort /\
     shortAnswersSubmitted state' = shortAnswersSubmitted submittedShort /\
     longAnswersSubmitted state' = longAnswersSubmitted submittedShort).
Proof.
  destruct (dispatchAll rlp_decode submittedShort ceremonyRun)
    as [state' |] eqn:Hrun; [| vm_compute in Hrun; discriminate Hrun].
  exists state'. split; [reflexivity |].
  exact (ceremony_keeps_submissions rlp_decode ceremonyRun submittedShort
           state' ltac:(repeat constructor) Hrun).
Defined.

Lemma error_is_never_cleared_witness :
  exists state',
    dispatchAll rlp_decode failedFetch recoveryRun = Ok state' /\
    is_Some (error state').
Proof.
  destruct (dispatchAll rlp_decode failedFetch recoveryRun)
    as [state' |] eqn:Hrun; [| vm_compute in Hrun; discriminate Hrun].
  exists state'. split; [reflexivity |].
  exact (error_is_never_cleared rlp_decode recoveryRun failedFetch state'
           ltac:(eexists; reflexivity) Hrun).
Defined.

(** ** The submission trigger and the store *)

Lemma submissionEffect_flags_false resolved seconds ep state :
  shortAnswersSubmitted state = false ->
  longAnswersSubmitted state = false ->
  submissionEffect resolved seconds (Some ep) state = Ok [].
Proof.
  intros Hs Hl. unfold submissionEffect. rewrite Hs, Hl.
  destruct (seconds =? 1); [| reflexivity].
  destruct (currentPeriod ep); reflexivity.
Qed.

Lemma submissionEffect_no_flips resolved seconds ep state :
  flips state = [] ->
  submissionEffect resolved seconds (Some ep) state = Ok [].
Proof.
  intros Hf. unfold submissionEffect. rewrite Hf. simpl.
  destruct (seconds =? 1); [| reflexivity].
  rewrite !andb_false_r. reflexivity.
Qed.

Lemma unsubmitting_action_step decode state action state' :
  unsubmitting_action action ->
  validationReducer decode state action = Ok state' ->
  shortAnswersSubmitted state = false /\ longAnswersSubmitted state = false ->
  shortAnswersSubmitted state' = false /\ longAnswersSubmitted state' = false.
Proof.
  intros Hact Hstep [Hs Hl].
  destruct action as [| | | | | hs hexes | | hexes | | | | | |];
    simpl in Hact; try contradiction; simpl in Hstep;
    try discriminate Hstep;
    try (injection Hstep as <-; simpl; split; (reflexivity || assumption)).
  - destruct (decodeFlips decode hs hexes); [| discriminate].
    injection Hstep as <-. split; assumption.
  - destruct (decodeFlips decode (hashes state) hexes); [| discriminate].
    injection Hstep as <-. split; assumption.
Qed.


(** X16: from a state whose two submitted flags are false, such as the
    initial state, no run of actions other than a snapshot load and the
    submissions themselves leads to a state in which the effect issues
    anything, whatever the tick, the period and the answers. *)
Theorem no_first_submission decode actions :
  forall state state' resolved seconds ep,
    shortAnswersSubmitted state = false ->
    longAnswersSubmitted state = false ->
    Forall unsubmitting_action actions ->
    dispatchAll decode state actions = Ok state' ->
    submissionEffect resolved seconds (Some ep) state' = Ok [].
Proof.
  induction actions as [| action rest IH];
    intros state state' resolved seconds ep Hs Hl Hacts Hrun.
  - injection Hrun as <-. apply submissionEffect_flags_false; assumption.
  - inversion Hacts as [| ? ? Hact Hrest]; subst. simpl in Hrun.
    destruct (validationReducer decode state action) as [state1 |] eqn:Hstep;
      [| discriminate].
    cbn [mbind result_bind] in Hrun.
    destruct (unsubmitting_action_step _ _ _ _ Hact Hstep (conj Hs Hl))
      as [Hs1 Hl1].
    eapply IH; eassumption.
Qed.

Lemma no_first_submission_witness :
  exists state',
    dispatchAll rlp_decode initialState answeringRun = Ok state' /\
    submissionEffect true 1 (Some (mkEpochState 7 ShortSession)) state'
    = Ok [].
Proof.
  destruct (dispatchAll rlp_decode initialState answeringRun)
    as [state' |] eqn:Hrun; [| vm_compute in Hrun; discriminate Hrun].
  exists state'. split; [reflexivity |].
  exact (no_first_submission rlp_decode answeringRun initialState state'
           true 1 (mkEpochState 7 ShortSession) eq_refl eq_refl
           ltac:(repeat constructor) Hrun).
Defined.

(** X17: right after a submission or an epoch reset is reduced the effect
    is quiet: the flips are empty, so no answer is found and nothing is
    sent, on any tick and in any period. *)
Theorem no_submission_after_clearing decode state action state'
    resolved seconds ep :
  clearing_event action ->
  validationReducer decode state action = Ok state' ->
  submissionEffect resolved seconds (Some ep) state' = Ok [].
Proof.
  intros Hact Hstep.
  destruct (clearing_event_step decode state action Hact)
    as (cleared & Hcleared & Hflips & _).
  rewrite Hstep in Hcleared. injection Hcleared as <-.
  apply submissionEffect_no_flips. exact Hflips.
Qed.

Lemma no_submission_after_clearing_witness :
  submissionEffect true 1 (Some (mkEpochState 7 ShortSession))
    (spreadCeremony initialCeremonyState
       (set_shortAnswersSubmitted true
          (set_epoch (Some 7)
             (set_shortAnswers examplePayload
                (set_shortAnswersSubmitted true oneAnswered)))))
  = Ok [].
Proof.
  apply (no_submission_after_clearing rlp_decode
           (set_shortAnswersSubmitted true oneAnswered)
           (SUBMIT_SHORT_ANSWERS examplePayload 7)).
  - exact I.
  - reflexivity.
Defined.

(** ** The payload *)

Lemma hasAnswer_number v : hasAnswer v = true -> exists a, v = JNum a.
Proof. destruct v; try discriminate. eauto. Qed.

Lemma prop_answer_record (a e : jsval) :
  prop ({["answer" := a; "easy" := e]} : obj) "answer" = a.
Proof. unfold prop. rewrite lookup_insert_eq. reflexivity. Qed.

(** X18: the payload has one record per flip, in order; each record has
    the two properties [answer] and [easy], [easy] is false, and [answer]
    is a finite number: the answer of the flip when it is one, and 0 for
    [null], [undefined], a missing property, [NaN] or any other value. *)
Theorem prepareAnswers_records flips :
  length (prepareAnswers flips) = length flips /\
  forall i flip,
    flips !! i = Some flip ->
    exists a,
      prepareAnswers flips !! i
      = Some {["answer" := JNum a; "easy" := JBool false]} /\
      (prop flip "answer" = JNum a \/
       hasAnswer (prop flip "answer") = false /\ a = 0).
Proof.
  split; [apply prepareAnswers_length |].
  intros i flip Hi. unfold prepareAnswers.
  rewrite list_lookup_fmap, Hi. simpl.
  destruct (hasAnswer (prop flip "answer")) eqn:Ha.
  - destruct (hasAnswer_number _ Ha) as [a Hnum]. exists a.
    rewrite Hnum. split; [reflexivity | left; reflexivity].
  - exists 0. split; [reflexivity | right; split; reflexivity].
Qed.

(** X19: preparing a payload again changes nothing, which is what
    happens to the stored answers that the effect hands to
    [submitShortAnswers] and [submitLongAnswers]. *)
Theorem prepareAnswers_idempotent flips :
  prepareAnswers (prepareAnswers flips) = prepareAnswers flips.
Proof.
  unfold prepareAnswers. rewrite map_map. apply map_ext. intros flip.
  rewrite prop_answer_record.
  destruct (hasAnswer (prop flip "answer")) eqn:Ha.
  - rewrite Ha. reflexivity.
  - reflexivity.
Qed.

(** X20: a submission reaches the store only after the transport has
    resolved, and the store then holds what was sent: when
    [submitShortAnswers] or [submitLongAnswers] dispatches, the payload of
    the action is the payload given to the transport and written to the
    database, and reducing the action stores that payload, sets the flag
    of the session and records the epoch. *)
Theorem store_holds_what_was_sent decode resolved flips e state action :
  (In (Dispatch action) (submitShortAnswers resolved flips e) ->
   resolved = true /\
   submitShortAnswers resolved flips e
   = [ApiSubmitShortAnswers (prepareAnswers flips) 0 0;
      DbSetShortAnswers (prepareAnswers flips) e;
      Dispatch action] /\
   exists state',
     validationReducer decode state action = Ok state' /\
     shortAnswers state' = prepareAnswers flips /\
     shortAnswersSubmitted state' = true /\
     epoch state' = Some e) /\
  (In (Dispatch action) (submitLongAnswers resolved flips e) ->
   resolved = true /\
   submitLongAnswers resolved flips e
   = [ApiSubmitLongAnswers (prepareAnswers flips) 0 0;
      DbSetLongAnswers (prepareAnswers flips) e;
      Dispatch action] /\
   exists state',
     validationReducer decode state action = Ok state' /\
     longAnswers state' = prepareAnswers flips /\
     longAnswersSubmitted state' = true /\
     epoch state' = Some e).
Proof.
  split; intros Hin; destruct resolved; simpl in Hin;
    destruct Hin as [Hin | Hin]; try discriminate Hin;
    try contradiction;
    destruct Hin as [Hin | [Hin | []]]; try discriminate Hin;
    injection Hin as <-;
    (split; [reflexivity |]); (split; [reflexivity |]);
    eexists; (split; [reflexivity |]); repeat split.
Qed.

(** ** Submissions, resets and snapshots *)

(** X21: the two submissions of an epoch commute: whichever is reduced
    first, the state ends with both payloads stored, both flags true and
    the per-ceremony fields reset. *)
Theorem submissions_commute decode state short long e :
  (state' ← validationReducer decode state (SUBMIT_SHORT_ANSWERS short e);
   validationReducer decode state' (SUBMIT_LONG_ANSWERS long e))
  = (state' ← validationReducer decode state (SUBMIT_LONG_ANSWERS long e);
     validationReducer decode state' (SUBMIT_SHORT_ANSWERS short e)) /\
  (state' ← validationReducer decode state (SUBMIT_SHORT_ANSWERS short e);
   validationReducer decode state' (SUBMIT_LONG_ANSWERS long e))
  = Ok {| shortAnswers := short;
          longAnswers := long;
          epoch := Some e;
          shortAnswersSubmitted := true;
          longAnswersSubmitted := true;
          hashes := [];
          flips := [];
          loading := true;
          currentIndex := 0;
          canSubmit := false;
          error := error state |}.
Proof. split; reflexivity. Qed.

(** X22: [LOAD_VALIDATION] with a snapshot that has every property of a
    state [saved] replaces the state by [saved], whatever it was, except
    that an error of the state survives a snapshot without one; with an
    empty snapshot it changes nothing; and loading a snapshot twice is
    loading it once. *)
Theorem load_validation_restores decode state saved validation :
  validationReducer decode state (LOAD_VALIDATION (snapshot_of saved))
  = Ok (match error saved with
        | Some _ => saved
        | None => set_error (error state) saved
        end) /\
  validationReducer decode state (LOAD_VALIDATION emptyValidation)
  = Ok state /\
  (state' ← validationReducer decode state (LOAD_VALIDATION validation);
   validationReducer decode state' (LOAD_VALIDATION validation))
  = validationReducer decode state (LOAD_VALIDATION validation).
Proof.
  split; [| split].
  - destruct saved as [sa la ep ss ls hs fl ld ci cs [er |]]; reflexivity.
  - destruct state; reflexivity.
  - destruct validation as [[?|] [?|] [?|] [?|] [?|] [?|] [?|] [?|] [?|] [?|]
                              [?|]]; reflexivity.
Qed.

Lemma store_holds_what_was_sent_witness :
  exists state',
    validationReducer rlp_decode oneAnswered
      (SUBMIT_SHORT_ANSWERS (prepareAnswers exampleFlips) 7) = Ok state' /\
    shortAnswers state' = prepareAnswers exampleFlips /\
    shortAnswersSubmitted state' = true /\
    epoch state' = Some 7.
Proof.
  apply (store_holds_what_was_sent rlp_decode true exampleFlips 7 oneAnswered
           (SUBMIT_SHORT_ANSWERS (prepareAnswers exampleFlips) 7)).
  right. right. left. reflexivity.
Defined.

(** ** The epoch effect *)

(** X23: the epoch effect does nothing while no epoch is reported or
    when the saved epoch is the reported one; when they differ (also when
    the snapshot has no epoch or a [null] one) it resets the database,
    dispatches [RESET_EPOCH] with the reported epoch and archives the
    flips, in this order; and once the dispatched action is reduced, the
    effect run against a snapshot of the resulting state does nothing: the
    reset is not repeated. *)
Theorem epochEffect_resets_once decode ep validation state :
  (forall saved, epochEffect None saved = Ok []) /\
  (saved_epoch validation = Some (Some (epochNumber ep)) ->
   epochEffect (Some ep) (Some validation) = Ok []) /\
  (saved_epoch validation <> Some (Some (epochNumber ep)) ->
   epochEffect (Some ep) (Some validation)
   = Ok [DbResetValidation (epochNumber ep);
         DispatchEpoch (RESET_EPOCH (epochNumber ep));
         ArchiveFlips]) /\
  (exists state',
     validationReducer decode state (RESET_EPOCH (epochNumber ep))
     = Ok state' /\
     epochEffect (Some ep) (Some (snapshot_of state')) = Ok []).
Proof.
  split; [reflexivity |]. split; [| split].
  - intros Hsaved. unfold epochEffect. rewrite Hsaved.
    rewrite Z.eqb_refl. reflexivity.
  - intros Hsaved. unfold epochEffect.
    destruct (saved_epoch validation) as [[savedEpoch |] |];
      try reflexivity.
    destruct (Z.eqb_spec (epochNumber ep) savedEpoch) as [<- | Hne];
      [contradiction | reflexivity].
  - eexists. split; [reflexivity |].
    unfold epochEffect. simpl. rewrite Z.eqb_refl. reflexivity.
Qed.

Lemma epochEffect_resets_once_witness :
  epochEffect (Some (mkEpochState 5 ShortSession))
    (Some (snapshot_of initialState))
  = Ok [DbResetValidation 5; DispatchEpoch (RESET_EPOCH 5); ArchiveFlips] /\
  epochEffect (Some (mkEpochState 5 ShortSession))
    (Some (snapshot_of (set_epoch (Some 5) initialState)))
  = Ok [].
Proof.
  split.
  - apply (epochEffect_resets_once rlp_decode (mkEpochState 5 ShortSession)
             (snapshot_of initialState) initialState).
    discriminate.
  - apply (epochEffect_resets_once rlp_decode (mkEpochState 5 ShortSession)
             (snapshot_of (set_epoch (Some 5) initialState)) initialState).
    reflexivity.
Defined.

(** ** More on fetching and decoding *)

Lemma fetch_flips_succeeded_step decode state hs hexes :
  validationReducer decode state (FETCH_FLIPS_SUCCEEDED hs hexes)
  = (decoded ← decodeFlips decode hs hexes;
     Ok (set_loading false (set_flips decoded state))).
Proof. reflexivity. Qed.

(** X24: reducing the same [FETCH_FLIPS_SUCCEEDED] twice gives what
    reducing it once gives, flips and exceptions alike. *)
Theorem fetch_flips_succeeded_idempotent decode state hs hexes :
  (state' ← validationReducer decode state (FETCH_FLIPS_SUCCEEDED hs hexes);
   validationReducer decode state' (FETCH_FLIPS_SUCCEEDED hs hexes))
  = validationReducer decode state (FETCH_FLIPS_SUCCEEDED hs hexes).
Proof.
  rewrite fetch_flips_succeeded_step.
  destruct (decodeFlips decode hs hexes) as [decoded | e] eqn:Hd;
    cbn [mbind result_bind]; [| reflexivity].
  rewrite fetch_flips_succeeded_step, Hd. reflexivity.
Qed.

(** X25: a content that decodes, but not to a list with a field 1, is
    not given defaults either: when the first match of a requested hash
    decodes to a byte string or to a list of fewer than two fields,
    [decodeFlips] raises a [TypeError] or an earlier exception, and
    returns no flips. *)
Theorem decodeFlips_not_a_record decode hashes hexes h found bytes r :
  h ∈ hashes ->
  first_match hexes (hash h) found ->
  fromHexString (substring2 (hex found)) = Ok bytes ->
  decode bytes = Ok r ->
  (exists b, r = RBuf b) \/ r = RList [] \/ (exists p, r = RList [p]) ->
  decodeFlip decode hexes h = Throw TypeError /\
  exists e, decodeFlips decode hashes hexes = Throw e.
Proof.
  intros Hh Hfound Hbytes Hdecode Hshape.
  assert (Hflip : decodeFlip decode hexes h = Throw TypeError).
  { unfold decodeFlip.
    rewrite (find_first_match _ _ _ Hfound), Hbytes.
    cbn [mbind result_bind]. rewrite Hdecode. cbn [mbind result_bind].
    destruct Hshape as [[b ->] | [-> | [p ->]]]; reflexivity. }
  split; [exact Hflip |].
  apply (mapM_result_throw (decodeFlip decode hexes) hashes h TypeError Hh
           Hflip).
Qed.

Lemma decodeFlips_not_a_record_witness :
  decodeFlip rlp_decode [mkHexItem "a" "0x83646f67"]
    (mkHashItem "a" (JBool true)) = Throw TypeError /\
  exists e,
    decodeFlips rlp_decode exampleHashes [mkHexItem "a" "0x83646f67"]
    = Throw e.
Proof.
  apply (decodeFlips_not_a_record rlp_decode exampleHashes
           [mkHexItem "a" "0x83646f67"] (mkHashItem "a" (JBool true))
           (mkHexItem "a" "0x83646f67") [131; 100; 111; 103]
           (RBuf [100; 111; 103])).
  - left.
  - exists [], []. split; [reflexivity |]. split; [reflexivity |].
    constructor.
  - reflexivity.
  - reflexivity.
  - left. eexists. reflexivity.
Defined.
